(** * The CQL service dispatcher and its processor pool

    A shallow embedding of [src/yb/cqlserver/cql_service.cc]: the
    constructor of [CQLServiceImpl], [Handle], [GetProcessor] and
    [SendResponse], over an explicit program state and an event log. *)

From Stdlib Require Import ZArith Lia List Bool String.
From stdpp Require Import base list.

Local Open Scope Z_scope.

(** ** Machine integers

    [GetProcessor] stores [processors_.size()] in an [int] and computes
    the reservation with [int] arithmetic; [reserve] takes a [size_t].
    Conversions and arithmetic are written out on [Z]: an [int] result is
    reduced to the 32-bit two's-complement range, a [size_t] modulo 2^64.
    The language leaves the overflow of [int] arithmetic undefined; the
    statements below that depend on the reservation are made for the
    sizes at which none occurs. *)

Definition INT_MAX : Z := 2 ^ 31 - 1.

Definition to_int (z : Z) : Z := (z + 2 ^ 31) mod 2 ^ 32 - 2 ^ 31.

Definition to_size_t (z : Z) : Z := z mod 2 ^ 64.

(** [std::vector<CQLProcessor::UniPtr>::max_size()] for 8-byte elements. *)
Definition max_size : Z := 2 ^ 60 - 1.

(** ** Data *)

(** Modelled from the spec: [cql_processor.h] is not among the sources.
    A processor "exposes a busy/idle state", which [is_used()] reads,
    [used()] sets and [unused()] clears, and it is created idle.  A
    [CQLProcessor] is reduced to that flag, the one part of it the
    service reads and writes. *)
Record CQLProcessor := mkCQLProcessor { is_used_ : bool }.

Definition new_CQLProcessor : CQLProcessor := {| is_used_ := false |}.

Definition set_used (b : bool) (c : CQLProcessor) : CQLProcessor :=
  {| is_used_ := b |}.

(** A [CQLProcessor*] is the index of the [unique_ptr] that owns the
    object in [processors_]: the vector is append-only, so a slot denotes
    the same object for as long as the service lives. *)
Abbreviation handle := nat.

Definition Slice := string.

(** A response is a result or an error payload; both are serialized and
    sent the same way. *)
Record CQLResponse := mkCQLResponse { is_error : bool; body : Slice }.

Record CQLInboundCall := mkCQLInboundCall { serialized_request : Slice }.

(** Modelled from the spec: [MonoTime] and [MonoDelta] are declared in
    [yb/util/monotime.h], which is not among the sources; a checkpoint is
    "a monotonic timestamp" and the recorder "accepts
    microsecond-granularity samples".  A [MonoTime] is a count of
    microseconds. *)
Definition MonoTime := Z.
Definition MonoDelta := Z.
Definition GetDeltaSince (t since : MonoTime) : MonoDelta := t - since.
Definition ToMicroseconds (d : MonoDelta) : Z := d.

Inductive metric :=
| time_to_get_cql_processor_
| time_to_process_request_
| time_to_queue_cql_response_.

(** What the service does, as the log records it. *)
Inductive event :=
| EvLock                                   (* process_mutex_ acquired *)
| EvUnlock                                 (* process_mutex_ released *)
| EvSize                                   (* processors_ read: size, begin, end *)
| EvReserve (n : Z)                        (* processors_.reserve(n) *)
| EvEmplaceBack                            (* processors_.emplace_back(p) *)
| EvReset (i : nat)                        (* processors_[i].reset(p) *)
| EvIsUsed (p : handle)                    (* p->is_used() *)
| EvUsed (p : handle)                      (* p->used() *)
| EvUnused (p : handle)                    (* p->unused() *)
| EvNew                                    (* new CQLProcessor(...) *)
| EvNow (t : MonoTime)                     (* MonoTime::Now read t *)
| EvProcessCall (p : handle) (request : Slice)
| EvSerialize (call : CQLInboundCall) (response : CQLResponse)
| EvRespondSuccess (call : CQLInboundCall)
| EvIncrement (m : metric) (sample : Z).

(** The state of the service and of its environment. *)
Record State := mkState {
  processors_ : list CQLProcessor;   (* std::vector<CQLProcessor::UniPtr> *)
  capacity_ : Z;                     (* processors_.capacity() *)
  ticks_ : nat;                      (* readings of the clock so far *)
  log_ : list event                  (* what has happened, oldest first *)
}.

Definition initial : State :=
  {| processors_ := []; capacity_ := 0; ticks_ := 0; log_ := [] |}.

Definition with_processors (ps : list CQLProcessor) (s : State) : State :=
  {| processors_ := ps; capacity_ := capacity_ s;
     ticks_ := ticks_ s; log_ := log_ s |}.

Definition with_capacity (c : Z) (s : State) : State :=
  {| processors_ := processors_ s; capacity_ := c;
     ticks_ := ticks_ s; log_ := log_ s |}.

Definition with_ticks (n : nat) (s : State) : State :=
  {| processors_ := processors_ s; capacity_ := capacity_ s;
     ticks_ := n; log_ := log_ s |}.

Definition with_log (l : list event) (s : State) : State :=
  {| processors_ := processors_ s; capacity_ := capacity_ s;
     ticks_ := ticks_ s; log_ := l |}.

(** ** Computations that change the state or stop

    A computation stops on a failed [CHECK] (the process aborts), on the
    [std::length_error] of [reserve], which nothing catches, or on the
    use of a pointer to no processor. *)

Inductive fault := CheckFailed | LengthError | BadPointer.

Inductive result (A : Type) :=
| Ok (a : A) (s : State)
| Stop (f : fault) (s : State).
Arguments Ok {A} a s.
Arguments Stop {A} f s.

Definition M (A : Type) := State -> result A.

Definition ret {A} (a : A) : M A := fun s => Ok a s.

Definition bind {A B} (m : M A) (k : A -> M B) : M B :=
  fun s => match m s with
           | Ok a s' => k a s'
           | Stop f s' => Stop f s'
           end.

Notation "x <- m ;; k" := (bind m (fun x => k))
  (at level 100, m at next level, right associativity).
Notation "m ;; k" := (bind m (fun _ => k))
  (at level 100, right associativity).

Definition get {A} (f : State -> A) : M A := fun s => Ok (f s) s.
Definition modify (f : State -> State) : M unit := fun s => Ok tt (f s).
Definition throw {A} (f : fault) : M A := fun s => Stop f s.
Definition emit (e : event) : M unit :=
  modify (fun s => with_log (log_ s ++ [e]) s).

(** The state a computation leaves, however it ends. *)
Definition state_of {A} (r : result A) : State :=
  match r with Ok _ s => s | Stop _ s => s end.

(** [std::lock_guard<std::mutex> guard(process_mutex_)]: the mutex is
    held for the scope and released when the scope is left, also by an
    exception. *)
Definition lock_guard {A} (scope : M A) : M A :=
  fun s => match (emit EvLock ;; scope) s with
           | Ok a s' => (emit EvUnlock ;; ret a) s'
           | Stop f s' => (emit EvUnlock ;; throw f) s'
           end.

(** ** The vector and the flags *)

(** [processors_.size()]; a range-based [for] reads the bounds of the
    vector once, which is the same reading. *)
Definition size : M nat :=
  emit EvSize ;; get (fun s => length (processors_ s)).

(** [processors_.reserve(n)], [n] a [size_t].  A refused allocation
    ([std::bad_alloc], here as for [new]) is outside the model: what is
    stated of a call that returns is stated for the runs in which the
    memory is granted. *)
Definition reserve (n : Z) : M unit :=
  emit (EvReserve n) ;;
  if max_size <? n then throw LengthError
  else modify (fun s => if capacity_ s <? n then with_capacity n s else s).

(** [processors_.emplace_back(p)]: the storage is reallocated only when
    it is full, to [size + max(size, 1)] slots. *)
Definition emplace_back (c : CQLProcessor) : M unit :=
  emit EvEmplaceBack ;;
  modify (fun s =>
    let n := Z.of_nat (length (processors_ s)) in
    let s' := if n <? capacity_ s then s
              else with_capacity (n + Z.max n 1) s in
    with_processors (processors_ s ++ [c]) s').

(** [p->is_used()] *)
Definition is_used (p : handle) : M bool :=
  emit (EvIsUsed p) ;;
  ps <- get processors_ ;;
  match ps !! p with
  | Some c => ret (is_used_ c)
  | None => throw BadPointer
  end.

Definition write_flag (b : bool) (p : handle) : M unit :=
  emit (if b then EvUsed p else EvUnused p) ;;
  ps <- get processors_ ;;
  match ps !! p with
  | Some c => modify (with_processors (<[p := set_used b c]> ps))
  | None => throw BadPointer
  end.

(** [p->used()] and [p->unused()] *)
Definition used : handle -> M unit := write_flag true.
Definition unused : handle -> M unit := write_flag false.

(** ** [CQLServiceImpl::GetProcessor] *)

(** The loop [for (CQLProcessor::UniPtr& processor : processors_)] over
    the slots [i], [i+1], ..., [i+n-1]; [cql_processor] is the pointer
    the loop assigns, [None] for [nullptr]. *)
Fixpoint scan (i n : nat) (cql_processor : option handle) : M (option handle) :=
  match n with
  | O => ret cql_processor
  | S n' =>
      u <- is_used i ;;
      scan (S i) n' (if u then cql_processor else Some i)
  end.

Definition GetProcessor : M handle :=
  lock_guard (
    n <- size ;;
    cql_processor <- scan 0 n None ;;
    p <- match cql_processor with
         | Some p => ret p
         | None =>
             n <- size ;;
             let size := to_int (Z.of_nat n) in
             emit EvNew ;;
             reserve (to_size_t (Z.max (to_int (size * 2)) (to_int (size + 10)))) ;;
             emplace_back new_CQLProcessor ;;
             ret n
         end ;;
    used p ;;
    ret p).

(** ** The constructor of [CQLServiceImpl]

    Metrics and the client are set up first; they are no part of the pool.
    Then [processors_.reserve(FLAGS_cql_service_num_threads)] and the loop
    [for (CQLProcessor::UniPtr& processor : processors_)] that resets each
    slot of the vector to a new processor. *)
Fixpoint reset_each (i n : nat) : M unit :=
  match n with
  | O => ret tt
  | S n' =>
      emit EvNew ;;
      emit (EvReset i) ;;
      modify (fun s =>
        with_processors (<[i := new_CQLProcessor]> (processors_ s)) s) ;;
      reset_each (S i) n'
  end.

Definition CQLServiceImpl_ctor (FLAGS_cql_service_num_threads : Z) : M unit :=
  reserve (to_size_t FLAGS_cql_service_num_threads) ;;
  n <- size ;;
  reset_each 0 n.

(** ** [SendResponse] and [Handle] *)

Section Service.

(** The monotonic clock: [clock n] is what the [n]-th call of
    [MonoTime::Now] returns. *)
Variable clock : nat -> MonoTime.

(** [CQLProcessor::ProcessCall], which is not among the sources: what
    processor [p] leaves in [response] for a request, [None] when it
    leaves the pointer null. *)
Variable ProcessCall : handle -> Slice -> option CQLResponse.

Definition Now : M MonoTime :=
  t <- get (fun s => clock (ticks_ s)) ;;
  modify (fun s => with_ticks (S (ticks_ s)) s) ;;
  emit (EvNow t) ;;
  ret t.

Definition Increment (m : metric) (sample : Z) : M unit :=
  emit (EvIncrement m sample).

Definition CHECK_NOTNULL {A} (ptr : option A) : M A :=
  match ptr with
  | Some a => ret a
  | None => throw CheckFailed
  end.

Definition SendResponse (cql_call : CQLInboundCall)
    (response : option CQLResponse) : M unit :=
  r <- CHECK_NOTNULL response ;;
  emit (EvSerialize cql_call r) ;;
  emit (EvRespondSuccess cql_call).

Definition Handle (inbound_call : option CQLInboundCall) : M unit :=
  cql_call <- CHECK_NOTNULL inbound_call ;;
  start <- Now ;;
  processor <- GetProcessor ;;
  (* CHECK(processor != nullptr): a handle is never null *)
  got_processor <- Now ;;
  Increment time_to_get_cql_processor_
    (ToMicroseconds (GetDeltaSince got_processor start)) ;;
  emit (EvProcessCall processor (serialized_request cql_call)) ;;
  let response := ProcessCall processor (serialized_request cql_call) in
  process_done <- Now ;;
  SendResponse cql_call response ;;
  unused processor ;;
  response_done <- Now ;;
  Increment time_to_process_request_
    (ToMicroseconds (GetDeltaSince response_done start)) ;;
  Increment time_to_queue_cql_response_
    (ToMicroseconds (GetDeltaSince response_done process_done)).

(** ** Sequences of operations on one service

    [Acquire] is a call of [GetProcessor], [Release p] the
    [p->unused()] of its caller and [Call c] a whole [Handle].  The
    mutex makes a call of [GetProcessor] one step and [unused()] is one
    store, so the calls of several threads on one service are, in some
    order, such a sequence.  [run] returns the processors the
    [Acquire]s were given, oldest first. *)
Inductive op :=
| Acquire
| Release (p : handle)
| Call (c : CQLInboundCall).

Fixpoint run (ops : list op) : M (list handle) :=
  match ops with
  | [] => ret []
  | Acquire :: ops' =>
      p <- GetProcessor ;; ps <- run ops' ;; ret (p :: ps)
  | Release p :: ops' => unused p ;; run ops'
  | Call c :: ops' => Handle (Some c) ;; run ops'
  end.

End Service.

(** ** Reading the log *)

(** The accesses to the shared pool state made while [process_mutex_] is
    not held; [held] tells whether it is held before the first event. *)
Definition touches_pool (e : event) : bool :=
  match e with
  | EvSize | EvReserve _ | EvEmplaceBack | EvReset _
  | EvIsUsed _ | EvUsed _ | EvUnused _ => true
  | _ => false
  end.

Fixpoint unguarded (held : bool) (l : list event) : list event :=
  match l with
  | [] => []
  | EvLock :: l' => unguarded true l'
  | EvUnlock :: l' => unguarded false l'
  | e :: l' =>
      if touches_pool e && negb held then e :: unguarded held l'
      else unguarded held l'
  end.

Definition pool_size (s : State) : nat := length (processors_ s).

Definition count (f : event -> bool) (l : list event) : nat :=
  length (List.filter f l).

Definition is_new (e : event) : bool :=
  match e with EvNew => true | _ => false end.

Definition is_emplace_back (e : event) : bool :=
  match e with EvEmplaceBack => true | _ => false end.

Definition is_serialize (e : event) : bool :=
  match e with EvSerialize _ _ => true | _ => false end.

Definition is_respond (e : event) : bool :=
  match e with EvRespondSuccess _ => true | _ => false end.

Definition is_unused (e : event) : bool :=
  match e with EvUnused _ => true | _ => false end.

(** The events of the transport: what is written for the client and the
    acknowledgment. *)
Definition is_transport (e : event) : bool :=
  is_serialize e || is_respond e.

(** The events a call of [GetProcessor] that returns [p] can log. *)
Definition from_GetProcessor (p : handle) (e : event) : bool :=
  match e with
  | EvLock | EvUnlock | EvSize | EvReserve _ | EvEmplaceBack
  | EvIsUsed _ | EvNew => true
  | EvUsed q => Nat.eqb q p
  | _ => false
  end.

(** An environment to run the service in: a clock that gives 0, 10, 40,
    90, ..., processors that answer every request with an error
    response, and a call. *)
Definition example_clock (n : nat) : MonoTime := Z.of_nat (10 * n * n).

Definition example_ProcessCall (p : handle) (request : Slice)
    : option CQLResponse :=
  Some {| is_error := true; body := request |}.

Definition example_call : CQLInboundCall :=
  {| serialized_request := "SELECT"%string |}.

Definition samples (m : metric) (l : list event) : list Z :=
  flat_map (fun e => match e with
                     | EvIncrement m' v =>
                         match m, m' with
                         | time_to_get_cql_processor_, time_to_get_cql_processor_
                         | time_to_process_request_, time_to_process_request_
                         | time_to_queue_cql_response_, time_to_queue_cql_response_ => [v]
                         | _, _ => []
                         end
                     | _ => []
                     end) l.

(** The value of the loop of [GetProcessor] as a function of the vector:
    [pick ps i n acc] is what [scan i n acc] leaves in [cql_processor]. *)
Fixpoint pick (ps : list CQLProcessor) (i n : nat) (acc : option handle)
    : option handle :=
  match n with
  | O => acc
  | S n' =>
      match ps !! i with
      | Some c => pick ps (S i) n' (if is_used_ c then acc else Some i)
      | None => acc
      end
  end.

(** What [GetProcessor] asks of [reserve] when the vector holds [n]
    processors, and the capacity the two calls on the vector leave. *)
Definition growth_request (n : nat) : Z :=
  let size := to_int (Z.of_nat n) in
  to_size_t (Z.max (to_int (size * 2)) (to_int (size + 10))).

Definition grown_capacity (n : nat) (capacity : Z) : Z :=
  let reserved :=
    if capacity <? growth_request n then growth_request n else capacity in
  if Z.of_nat n <? reserved then reserved
  else Z.of_nat n + Z.max (Z.of_nat n) 1.

Definition scan_log (n : nat) : list event := map EvIsUsed (seq 0 n).

Definition idle (s : State) (p : handle) : Prop :=
  processors_ s !! p = Some {| is_used_ := false |}.

Definition busy (s : State) (p : handle) : Prop :=
  processors_ s !! p = Some {| is_used_ := true |}.

(** [GetProcessor] returns processor [p], which was idle, and no idle
    processor sits in a later slot. *)
Definition reused (s : State) (p : handle) (s' : State) : Prop :=
  idle s p /\
  (forall q, (p < q < length (processors_ s))%nat -> busy s q) /\
  s' = {| processors_ := <[p := {| is_used_ := true |}]> (processors_ s);
          capacity_ := capacity_ s;
          ticks_ := ticks_ s;
          log_ := log_ s ++ [EvLock; EvSize]
                    ++ scan_log (length (processors_ s))
                    ++ [EvUsed p; EvUnlock] |}.

(** [GetProcessor] finds every processor busy and returns a new one. *)
Definition grown (s : State) (p : handle) (s' : State) : Prop :=
  let n := length (processors_ s) in
  (forall q, (q < n)%nat -> busy s q) /\
  p = n /\
  growth_request n <= max_size /\
  s' = {| processors_ := processors_ s ++ [{| is_used_ := true |}];
          capacity_ := grown_capacity n (capacity_ s);
          ticks_ := ticks_ s;
          log_ := log_ s ++ [EvLock; EvSize] ++ scan_log n
                    ++ [EvSize; EvNew; EvReserve (growth_request n);
                        EvEmplaceBack; EvUsed n; EvUnlock] |}.

(** What [Handle] adds to the log once [GetProcessor] has returned [p],
    given the four readings of the clock it makes. *)
Definition served_log (start got_processor process_done response_done : MonoTime)
    (p : handle) (c : CQLInboundCall) (r : CQLResponse) : list event :=
  [EvNow got_processor;
   EvIncrement time_to_get_cql_processor_
     (ToMicroseconds (GetDeltaSince got_processor start));
   EvProcessCall p (serialized_request c);
   EvNow process_done;
   EvSerialize c r;
   EvRespondSuccess c;
   EvUnused p;
   EvNow response_done;
   EvIncrement time_to_process_request_
     (ToMicroseconds (GetDeltaSince response_done start));
   EvIncrement time_to_queue_cql_response_
     (ToMicroseconds (GetDeltaSince response_done process_done))].

(** The state in which [Handle] calls [GetProcessor]: the clock has been
    read once more, for [start]. *)
Definition started (clock : nat -> MonoTime) (s : State) : State :=
  {| processors_ := processors_ s;
     capacity_ := capacity_ s;
     ticks_ := S (ticks_ s);
     log_ := log_ s ++ [EvNow (clock (ticks_ s))] |}.

(** A pool with the given flags, nothing else having happened. *)
Definition pool_with (flags : list bool) : State :=
  with_processors (map mkCQLProcessor flags) initial.

(** Whether [process_mutex_] is held after the events [l], when it is
    [held] before them, and the events logged while it is held. *)
Fixpoint held_after (held : bool) (l : list event) : bool :=
  match l with
  | [] => held
  | EvLock :: l' => held_after true l'
  | EvUnlock :: l' => held_after false l'
  | _ :: l' => held_after held l'
  end.

Fixpoint locked_events (held : bool) (l : list event) : list event :=
  match l with
  | [] => []
  | EvLock :: l' => locked_events true l'
  | EvUnlock :: l' => locked_events false l'
  | e :: l' =>
      if held then e :: locked_events held l' else locked_events held l'
  end.

(** The work of [Handle] on the call itself: the clock, the metrics, the
    processing of the request and the response. *)
Definition is_call_work (e : event) : bool :=
  match e with
  | EvNow _ | EvIncrement _ _ | EvProcessCall _ _
  | EvSerialize _ _ | EvRespondSuccess _ => true
  | _ => false
  end.

(** The calls of [GetProcessor] in a sequence of operations, those of
    [Handle] included. *)
Definition acquisitions (ops : list op) : nat :=
  length (List.filter (fun o => match o with
                                | Acquire | Call _ => true
                                | Release _ => false
                                end) ops).

Definition is_process_call (e : event) : bool :=
  match e with EvProcessCall _ _ => true | _ => false end.

Definition is_used_event (e : event) : bool :=
  match e with EvUsed _ => true | _ => false end.

(** A clock that never goes back. *)
Definition monotonic (clock : nat -> MonoTime) : Prop :=
  forall n, clock n <= clock (S n).

(** * Properties *)

Ltac run_step :=
  unfold emit, bind, ret, get, modify, throw, with_log, with_processors,
    with_capacity, with_ticks;
  cbn [processors_ capacity_ ticks_ log_].

Lemma scan_eq n : forall i acc s,
  (i + n <= length (processors_ s))%nat ->
  scan i n acc s =
    Ok (pick (processors_ s) i n acc)
       (with_log (log_ s ++ map EvIsUsed (seq i n)) s).
Proof.
  induction n as [|n IH]; intros i acc s Hlen.
  - cbn. unfold ret, with_log. rewrite app_nil_r. by destruct s.
  - cbn [scan pick seq map]. unfold bind at 1. unfold is_used. run_step.
    destruct (processors_ s !! i) as [c|] eqn:Hc.
    + rewrite IH by (cbn; lia). run_step.
      by rewrite <- app_assoc.
    + apply lookup_ge_None in Hc. lia.
Qed.

Lemma pick_spec ps n : forall i acc,
  (i + n <= length ps)%nat ->
  match pick ps i n acc with
  | Some p =>
      (acc = Some p /\
       forall q, (i <= q < i + n)%nat -> ps !! q = Some {| is_used_ := true |})
      \/ ((i <= p < i + n)%nat /\ ps !! p = Some {| is_used_ := false |} /\
          forall q, (p < q < i + n)%nat -> ps !! q = Some {| is_used_ := true |})
  | None =>
      acc = None /\
      forall q, (i <= q < i + n)%nat -> ps !! q = Some {| is_used_ := true |}
  end.
Proof.
  induction n as [|n IH]; intros i acc Hlen.
  - cbn. destruct acc; [left|]; split; auto; intros; lia.
  - cbn [pick]. destruct (ps !! i) as [[u]|] eqn:Hc.
    2: { apply lookup_ge_None in Hc. lia. }
    specialize (IH (S i) (if u then acc else Some i)).
    cbn [is_used_]. destruct (pick ps (S i) n _) as [p|].
    + destruct IH as [[Hacc Hall]|(Hp & Hidle & Hall)]; [lia| |].
      * destruct u.
        -- left. split; [done|]. intros q Hq.
           destruct (decide (q = i)) as [->|]; [done|]. apply Hall. lia.
        -- right. injection Hacc as <-. split; [lia|]. split; [done|].
           intros q Hq. apply Hall. lia.
      * right. split; [lia|]. split; [done|]. intros q Hq. apply Hall. lia.
    + destruct IH as [Hacc Hall]; [lia|]. destruct u; [|done].
      split; [done|]. intros q Hq.
      destruct (decide (q = i)) as [->|]; [done|]. apply Hall. lia.
Qed.

Lemma reserve_eq n s :
  reserve n s =
    if max_size <? n then
      Stop LengthError (with_log (log_ s ++ [EvReserve n]) s)
    else
      Ok tt {| processors_ := processors_ s;
               capacity_ := if capacity_ s <? n then n else capacity_ s;
               ticks_ := ticks_ s;
               log_ := log_ s ++ [EvReserve n] |}.
Proof.
  unfold reserve. run_step. destruct (max_size <? n); [done|].
  run_step. by destruct (capacity_ s <? n).
Qed.

Lemma emplace_back_eq c s :
  emplace_back c s =
    Ok tt {| processors_ := processors_ s ++ [c];
             capacity_ :=
               (let n := Z.of_nat (length (processors_ s)) in
                if n <? capacity_ s then capacity_ s else n + Z.max n 1);
             ticks_ := ticks_ s;
             log_ := log_ s ++ [EvEmplaceBack] |}.
Proof.
  unfold emplace_back. run_step.
  by destruct (Z.of_nat (length (processors_ s)) <? capacity_ s).
Qed.

Lemma write_flag_eq b p c s :
  processors_ s !! p = Some c ->
  write_flag b p s =
    Ok tt {| processors_ := <[p := {| is_used_ := b |}]> (processors_ s);
             capacity_ := capacity_ s;
             ticks_ := ticks_ s;
             log_ := log_ s ++ [if b then EvUsed p else EvUnused p] |}.
Proof. intros Hc. unfold write_flag. run_step. rewrite Hc. by run_step. Qed.

Lemma write_flag_bad b p s :
  processors_ s !! p = None ->
  write_flag b p s =
    Stop BadPointer
      (with_log (log_ s ++ [if b then EvUsed p else EvUnused p]) s).
Proof. intros Hc. unfold write_flag. run_step. rewrite Hc. by run_step. Qed.

(** What a call of [GetProcessor] returns and leaves, in one equation. *)
Lemma GetProcessor_eq s :
  GetProcessor s =
    let ps := processors_ s in
    let n := length ps in
    match pick ps 0 n None with
    | Some p =>
        Ok p {| processors_ := <[p := {| is_used_ := true |}]> ps;
                capacity_ := capacity_ s;
                ticks_ := ticks_ s;
                log_ := log_ s ++ [EvLock; EvSize] ++ scan_log n
                          ++ [EvUsed p; EvUnlock] |}
    | None =>
        if max_size <? growth_request n then
          Stop LengthError
               {| processors_ := ps;
                  capacity_ := capacity_ s;
                  ticks_ := ticks_ s;
                  log_ := log_ s ++ [EvLock; EvSize] ++ scan_log n
                            ++ [EvSize; EvNew; EvReserve (growth_request n);
                                EvUnlock] |}
        else
          Ok n {| processors_ := ps ++ [{| is_used_ := true |}];
                  capacity_ := grown_capacity n (capacity_ s);
                  ticks_ := ticks_ s;
                  log_ := log_ s ++ [EvLock; EvSize] ++ scan_log n
                            ++ [EvSize; EvNew; EvReserve (growth_request n);
                                EvEmplaceBack; EvUsed n; EvUnlock] |}
    end.
Proof.
  cbv zeta. unfold GetProcessor, lock_guard.
  unfold bind at 1. unfold emit at 1, modify at 1.
  unfold bind at 1. unfold size at 1.
  unfold bind at 1, emit at 1, modify at 1, get at 1.
  cbn [processors_ with_log].
  unfold bind at 1. rewrite scan_eq by (cbn; lia).
  cbn [processors_ with_log log_ capacity_ ticks_].
  pose proof (pick_spec (processors_ s) (length (processors_ s)) 0 None) as Hp.
  destruct (pick (processors_ s) 0 (length (processors_ s)) None) as [p|].
  - destruct Hp as [[? _]|(Hlt & Hidle & _)]; [lia|done|].
    unfold used, write_flag. run_step. rewrite Hidle. run_step.
    unfold scan_log, set_used. do 2 f_equal. by rewrite <- !app_assoc.
  - destruct Hp as [_ Hall]; [lia|].
    unfold size, used. unfold bind. run_step.
    fold (growth_request (length (processors_ s))).
    rewrite reserve_eq. run_step.
    destruct (max_size <? growth_request (length (processors_ s))).
    + run_step. unfold scan_log. do 2 f_equal. by rewrite <- !app_assoc.
    + rewrite emplace_back_eq. run_step.
      erewrite write_flag_eq
        by (cbn; apply list_lookup_middle; reflexivity).
      run_step. unfold grown_capacity, scan_log. f_equal. f_equal.
      * rewrite insert_app_r_alt by reflexivity.
        by rewrite Nat.sub_diag.
      * by rewrite <- !app_assoc.
Qed.

(** ** Integer facts *)

Lemma to_int_small z : - 2 ^ 31 <= z <= INT_MAX -> to_int z = z.
Proof.
  unfold to_int, INT_MAX. intros Hz. rewrite Z.mod_small; lia.
Qed.

Lemma to_int_range z : - 2 ^ 31 <= to_int z <= INT_MAX.
Proof.
  unfold to_int, INT_MAX.
  pose proof (Z.mod_pos_bound (z + 2 ^ 31) (2 ^ 32)). lia.
Qed.

Lemma growth_request_fits n :
  Z.of_nat n + 10 <= INT_MAX ->
  Z.of_nat n + 10 <= growth_request n <= INT_MAX.
Proof.
  intros Hn. unfold growth_request. cbv zeta.
  rewrite (to_int_small (Z.of_nat n)) by (unfold INT_MAX in *; lia).
  rewrite (to_int_small (Z.of_nat n + 10)) by (unfold INT_MAX in *; lia).
  pose proof (to_int_range (Z.of_nat n * 2)) as Hr.
  unfold to_size_t. rewrite Z.mod_small; unfold INT_MAX in *; lia.
Qed.

Lemma growth_request_exact n :
  Z.of_nat n * 2 <= INT_MAX ->
  growth_request n = Z.max (2 * Z.of_nat n) (Z.of_nat n + 10).
Proof.
  intros Hn. unfold growth_request. cbv zeta.
  rewrite (to_int_small (Z.of_nat n)) by (unfold INT_MAX in *; lia).
  rewrite (to_int_small (Z.of_nat n + 10)) by (unfold INT_MAX in *; lia).
  rewrite (to_int_small (Z.of_nat n * 2)) by (unfold INT_MAX in *; lia).
  unfold to_size_t. rewrite Z.mod_small; unfold INT_MAX in *; lia.
Qed.

Lemma growth_request_allowed n :
  Z.of_nat n + 10 <= INT_MAX -> (max_size <? growth_request n) = false.
Proof.
  intros Hn. apply Z.ltb_ge. pose proof (growth_request_fits n Hn).
  unfold max_size, INT_MAX in *. lia.
Qed.

(** ** The two ways [GetProcessor] returns *)

Lemma pick_all_Some ps p :
  pick ps 0 (length ps) None = Some p ->
  ps !! p = Some {| is_used_ := false |} /\
  forall q, (p < q < length ps)%nat -> ps !! q = Some {| is_used_ := true |}.
Proof.
  intros Hp. pose proof (pick_spec ps (length ps) 0 None) as H.
  rewrite Hp in H. destruct H as [[? _]|(_ & ? & ?)]; [lia|done|].
  split; [done|]. intros q Hq. apply H0. lia.
Qed.

Lemma pick_all_None ps :
  pick ps 0 (length ps) None = None ->
  forall q, (q < length ps)%nat -> ps !! q = Some {| is_used_ := true |}.
Proof.
  intros Hp. pose proof (pick_spec ps (length ps) 0 None) as H.
  rewrite Hp in H. destruct H as [_ H]; [lia|].
  intros q Hq. apply H. lia.
Qed.

Lemma GetProcessor_Ok_inv s p s' :
  GetProcessor s = Ok p s' -> reused s p s' \/ grown s p s'.
Proof.
  rewrite GetProcessor_eq. cbv zeta.
  destruct (pick _ _ _ _) as [q|] eqn:Hq.
  - intros [= <- <-]. left. apply pick_all_Some in Hq as [Hidle Hbusy].
    by repeat split.
  - destruct (max_size <? _) eqn:Hmax; [done|].
    intros [= <- <-]. right. repeat split; try done.
    + intros q Hlt. by apply pick_all_None.
    + by apply Z.ltb_ge.
Qed.

Lemma GetProcessor_Stop_inv s f s' :
  GetProcessor s = Stop f s' ->
  f = LengthError /\
  INT_MAX < Z.of_nat (length (processors_ s)) + 10 /\
  processors_ s' = processors_ s /\
  capacity_ s' = capacity_ s /\
  ticks_ s' = ticks_ s /\
  log_ s' = log_ s ++ [EvLock; EvSize]
              ++ scan_log (length (processors_ s))
              ++ [EvSize; EvNew;
                  EvReserve (growth_request (length (processors_ s)));
                  EvUnlock].
Proof.
  rewrite GetProcessor_eq. cbv zeta.
  destruct (pick _ _ _ _) as [q|] eqn:Hq; [done|].
  destruct (max_size <? _) eqn:Hmax; [|done].
  intros [= <- <-]. cbn. repeat split; try done.
  destruct (Z.le_gt_cases (Z.of_nat (length (processors_ s)) + 10) INT_MAX)
    as [Hle|Hgt]; [|lia].
  rewrite growth_request_allowed in Hmax by done. done.
Qed.

Lemma GetProcessor_Ok_facts s p s' :
  GetProcessor s = Ok p s' ->
  busy s' p /\ ~ busy s p /\
  ticks_ s' = ticks_ s /\
  (length (processors_ s) <= length (processors_ s'))%nat /\
  (forall q, q <> p -> processors_ s' !! q = processors_ s !! q).
Proof.
  intros H.
  apply GetProcessor_Ok_inv in H as [(Hidle & _ & ->)|(Hall & -> & _ & ->)];
    unfold busy, idle in *; cbn.
  - pose proof (lookup_lt_Some _ _ _ Hidle).
    split; [by apply list_lookup_insert_eq|].
    split; [congruence|]. split; [done|].
    split; [by rewrite length_insert|].
    intros q Hq. by apply list_lookup_insert_ne.
  - split; [by apply list_lookup_middle|].
    split; [by rewrite lookup_ge_None_2|]. split; [done|].
    split; [rewrite length_app; lia|].
    intros q Hq. destruct (decide (q < length (processors_ s))%nat).
    + by apply lookup_app_l.
    + rewrite !lookup_ge_None_2; [done|lia|rewrite length_app; cbn; lia].
Qed.

Section ServiceFacts.

Variable clock : nat -> MonoTime.
Variable ProcessCall : handle -> Slice -> option CQLResponse.

Lemma Handle_eq c s :
  Handle clock ProcessCall (Some c) s =
    let t := ticks_ s in
    match GetProcessor (started clock s) with
    | Stop f s' => Stop f s'
    | Ok p s1 =>
        match ProcessCall p (serialized_request c) with
        | None =>
            Stop CheckFailed
              {| processors_ := processors_ s1;
                 capacity_ := capacity_ s1;
                 ticks_ := 3 + t;
                 log_ := log_ s1 ++
                   [EvNow (clock (1 + t)%nat);
                    EvIncrement time_to_get_cql_processor_
                      (ToMicroseconds
                         (GetDeltaSince (clock (1 + t)%nat) (clock t)));
                    EvProcessCall p (serialized_request c);
                    EvNow (clock (2 + t)%nat)] |}
        | Some r =>
            Ok tt {| processors_ :=
                       <[p := {| is_used_ := false |}]> (processors_ s1);
                     capacity_ := capacity_ s1;
                     ticks_ := 4 + t;
                     log_ := log_ s1 ++
                       served_log (clock t) (clock (1 + t)%nat)
                         (clock (2 + t)%nat) (clock (3 + t)%nat) p c r |}
        end
    end.
Proof.
  cbv zeta. unfold Handle, CHECK_NOTNULL. unfold bind at 1, ret at 1.
  unfold bind at 1, Now at 1. run_step. fold (started clock s).
  destruct (GetProcessor _) as [p s1|f s1] eqn:Hget; [|done].
  apply GetProcessor_Ok_facts in Hget as (Hbusy & _ & Ht & _).
  cbn [ticks_ started] in Ht.
  unfold Increment, SendResponse, CHECK_NOTNULL, unused, Now. run_step.
  rewrite Ht.
  destruct (ProcessCall p (serialized_request c)) as [r|].
  - run_step. erewrite write_flag_eq by exact Hbusy. run_step.
    unfold served_log. do 2 f_equal. by rewrite <- !app_assoc.
  - run_step. do 2 f_equal. by rewrite <- !app_assoc.
Qed.

End ServiceFacts.

(** ** [GetProcessor] on a pool with and without an idle processor *)

Lemma GetProcessor_reuses s i :
  idle s i ->
  exists p s', GetProcessor s = Ok p s' /\ reused s p s' /\ (i <= p)%nat.
Proof.
  intros Hi. pose proof (lookup_lt_Some _ _ _ Hi) as Hlt.
  destruct (GetProcessor s) as [p s'|f s'] eqn:Hget.
  - exists p, s'. split; [done|].
    apply GetProcessor_Ok_inv in Hget as [Hre|(Hall & _)].
    + split; [done|]. destruct Hre as (Hp & Hlater & _).
      destruct (decide (i <= p)%nat) as [|Hgt]; [done|].
      unfold idle, busy in *. rewrite Hlater in Hi by lia. done.
    + unfold idle, busy in *. rewrite Hall in Hi by done. done.
  - rewrite GetProcessor_eq in Hget. cbv zeta in Hget.
    destruct (pick _ _ _ _) eqn:Hpick; [done|].
    unfold idle in Hi. rewrite (pick_all_None _ Hpick) in Hi by done. done.
Qed.

Lemma GetProcessor_grows s :
  (forall i, ~ idle s i) ->
  Z.of_nat (pool_size s) + 10 <= INT_MAX ->
  exists s', GetProcessor s = Ok (pool_size s) s' /\ grown s (pool_size s) s'.
Proof.
  intros Hnone Hfit. unfold pool_size in *.
  destruct (GetProcessor s) as [p s'|f s'] eqn:Hget.
  - apply GetProcessor_Ok_inv in Hget as Hcase.
    destruct Hcase as [(Hp & _)|Hgr]; [by apply Hnone in Hp|].
    pose proof Hgr as (_ & -> & _). by exists s'.
  - apply GetProcessor_Stop_inv in Hget as (_ & Hbig & _). lia.
Qed.

Lemma idle_or_all_busy s :
  (exists i, idle s i) \/ (forall i, ~ idle s i).
Proof.
  destruct (pick (processors_ s) 0 (length (processors_ s)) None) as [p|] eqn:Hp.
  - left. exists p. by apply pick_all_Some in Hp as [? _].
  - right. intros i Hi. pose proof (lookup_lt_Some _ _ _ Hi).
    unfold idle in Hi. rewrite (pick_all_None _ Hp) in Hi by done. done.
Qed.

Lemma GetProcessor_returns s :
  Z.of_nat (pool_size s) + 10 <= INT_MAX ->
  exists p s', GetProcessor s = Ok p s'.
Proof.
  intros Hfit. destruct (idle_or_all_busy s) as [[i Hi]|Hnone].
  - destruct (GetProcessor_reuses s i Hi) as (p & s' & Hget & _). eauto.
  - destruct (GetProcessor_grows s Hnone Hfit) as (s' & Hget & _). eauto.
Qed.

Lemma count_app f l1 l2 : count f (l1 ++ l2) = (count f l1 + count f l2)%nat.
Proof. unfold count. by rewrite List.filter_app, length_app. Qed.

Lemma count_scan_log f n :
  (forall p, f (EvIsUsed p) = false) -> count f (scan_log n) = 0%nat.
Proof.
  intros Hf. unfold count, scan_log.
  induction (seq 0 n) as [|p l IH]; [done|]. cbn. by rewrite Hf.
Qed.

(** C10: on a pool with an idle processor, [GetProcessor] reads the flag
    of every processor, first slot to last, and returns the idle
    processor in the highest slot, marked used. *)
Theorem GetProcessor_selects_last_idle s i :
  idle s i ->
  exists p s',
    GetProcessor s = Ok p s' /\
    idle s p /\
    (forall q, idle s q -> (q <= p)%nat) /\
    busy s' p /\
    log_ s' = log_ s ++ [EvLock; EvSize]
                ++ map EvIsUsed (seq 0 (pool_size s))
                ++ [EvUsed p; EvUnlock].
Proof.
  intros Hi. destruct (GetProcessor_reuses s i Hi) as (p & s' & Hget & Hre & _).
  exists p, s'. split; [done|].
  apply GetProcessor_Ok_facts in Hget as (Hbusy & _).
  destruct Hre as (Hp & Hlater & ->). split; [done|].
  split; [|by split].
  intros q Hq. destruct (decide (q <= p)%nat) as [|Hgt]; [done|].
  pose proof (lookup_lt_Some _ _ _ Hq).
  unfold idle, busy in *. rewrite Hlater in Hq by lia. done.
Qed.

Lemma GetProcessor_selects_last_idle_witness :
  exists s',
    GetProcessor (pool_with [false; true; false; true]) = Ok 2%nat s' /\
    busy s' 2.
Proof.
  destruct (GetProcessor_selects_last_idle
              (pool_with [false; true; false; true]) 0%nat eq_refl)
    as (p & s' & Hget & _ & _ & Hbusy & _).
  vm_compute in Hget. injection Hget as <- <-. eexists. split; reflexivity.
Defined.

(** C2: [GetProcessor] returns a processor from every pool state, with
    no wait for one to become idle.  When a processor is idle it returns
    an idle one and constructs nothing; when none is, it constructs one
    processor, appends it to the pool and returns it (the size being one
    at which the [int] arithmetic of the reservation does not
    overflow). *)
Theorem GetProcessor_always_returns s :
  ((exists i, idle s i) ->
   exists p s' evs,
     GetProcessor s = Ok p s' /\
     log_ s' = log_ s ++ evs /\
     idle s p /\ busy s' p /\
     processors_ s' = <[p := {| is_used_ := true |}]> (processors_ s) /\
     count is_new evs = 0%nat /\ count is_emplace_back evs = 0%nat) /\
  ((forall i, ~ idle s i) ->
   Z.of_nat (pool_size s) + 10 <= INT_MAX ->
   exists p s' evs,
     GetProcessor s = Ok p s' /\
     log_ s' = log_ s ++ evs /\
     p = pool_size s /\ busy s' p /\
     processors_ s' = processors_ s ++ [{| is_used_ := true |}] /\
     count is_new evs = 1%nat /\ count is_emplace_back evs = 1%nat).
Proof.
  split.
  - intros [i Hi].
    destruct (GetProcessor_reuses s i Hi) as (p & s' & Hget & Hre & _).
    exists p, s'. eexists. split; [done|].
    apply GetProcessor_Ok_facts in Hget as (Hbusy & _).
    destruct Hre as (Hp & _ & ->). cbn [log_ processors_].
    split; [reflexivity|]. do 3 (split; [done|]).
    rewrite !count_app, !count_scan_log by done. done.
  - intros Hnone Hfit.
    destruct (GetProcessor_grows s Hnone Hfit) as (s' & Hget & Hgr).
    exists (pool_size s), s'. eexists. split; [done|].
    apply GetProcessor_Ok_facts in Hget as (Hbusy & _).
    destruct Hgr as (_ & _ & _ & ->). cbn [log_ processors_].
    split; [reflexivity|]. do 3 (split; [done|]).
    rewrite !count_app, !count_scan_log by done. done.
Qed.

Lemma GetProcessor_always_returns_witness :
  (exists s', GetProcessor (pool_with [false; true]) = Ok 0%nat s') /\
  (exists s', GetProcessor (pool_with [true; true]) = Ok 2%nat s' /\
              processors_ s' = map mkCQLProcessor [true; true; true]).
Proof.
  split.
  - destruct (GetProcessor_always_returns (pool_with [false; true]))
      as [Hreuse _].
    destruct Hreuse as (p & s' & evs & Hget & _).
    { exists 0%nat. reflexivity. }
    vm_compute in Hget. injection Hget as <- <-. eexists. reflexivity.
  - destruct (GetProcessor_always_returns (pool_with [true; true]))
      as [_ Hgrow].
    destruct Hgrow as (p & s' & evs & Hget & _ & -> & _ & Hps & _).
    { intros i Hi. unfold idle in Hi.
      destruct i as [|[|[|i]]]; discriminate Hi. }
    { vm_compute. discriminate. }
    exists s'. split; [exact Hget | exact Hps].
Defined.

(** C7: when [GetProcessor] has to create a processor (and twice the
    size fits an [int]), it reserves max(2*size, size+10) slots, and the
    capacity of the vector is at least that when it returns. *)
Theorem GetProcessor_growth_capacity s :
  (forall i, ~ idle s i) ->
  2 * Z.of_nat (pool_size s) <= INT_MAX ->
  exists p s' l1 l2,
    GetProcessor s = Ok p s' /\
    pool_size s' = S (pool_size s) /\
    log_ s' = log_ s ++ l1
      ++ [EvReserve (Z.max (2 * Z.of_nat (pool_size s))
                           (Z.of_nat (pool_size s) + 10))] ++ l2 /\
    Z.max (2 * Z.of_nat (pool_size s)) (Z.of_nat (pool_size s) + 10)
      <= capacity_ s'.
Proof.
  intros Hnone Hfit.
  assert (Z.of_nat (pool_size s) + 10 <= INT_MAX) as Hfit'
    by (unfold INT_MAX in *; lia).
  destruct (GetProcessor_grows s Hnone Hfit') as (s' & Hget & Hgr).
  exists (pool_size s), s'.
  exists ([EvLock; EvSize] ++ scan_log (pool_size s) ++ [EvSize; EvNew]).
  exists [EvEmplaceBack; EvUsed (pool_size s); EvUnlock].
  split; [done|]. destruct Hgr as (_ & _ & _ & ->).
  unfold pool_size in *. cbn [processors_ log_ capacity_].
  rewrite <- growth_request_exact by lia.
  split; [rewrite length_app; cbn; lia|].
  split; [by rewrite <- !app_assoc|].
  pose proof (growth_request_fits _ Hfit') as [Hlo _].
  unfold grown_capacity. cbv zeta.
  destruct (capacity_ s <? growth_request _) eqn:Hcap.
  - destruct (Z.of_nat _ <? growth_request _) eqn:Hn; [lia|].
    apply Z.ltb_ge in Hn. lia.
  - apply Z.ltb_ge in Hcap.
    destruct (Z.of_nat _ <? capacity_ s) eqn:Hn; [lia|].
    apply Z.ltb_ge in Hn. lia.
Qed.

Lemma GetProcessor_growth_capacity_witness :
  exists s', GetProcessor (pool_with [true; true; true]) = Ok 3%nat s' /\
             13 <= capacity_ s'.
Proof.
  destruct (GetProcessor_growth_capacity (pool_with [true; true; true]))
    as (p & s' & l1 & l2 & Hget & _ & _ & Hcap).
  { intros i Hi. unfold idle in Hi.
    destruct i as [|[|[|i]]]; discriminate Hi. }
  { vm_compute. discriminate. }
  exists s'. split; [|exact Hcap].
  vm_compute in Hget. injection Hget as <- <-. reflexivity.
Defined.

(** ** The log of [GetProcessor] *)

Lemma forallb_scan_log f n :
  (forall p, f (EvIsUsed p) = true) -> forallb f (scan_log n) = true.
Proof.
  intros Hf. unfold scan_log.
  induction (seq 0 n) as [|p l IH]; [done|]. cbn. by rewrite Hf.
Qed.

Lemma unguarded_scan_log n rest :
  unguarded true (scan_log n ++ rest) = unguarded true rest.
Proof.
  unfold scan_log. induction (seq 0 n) as [|p l IH]; [done|]. by cbn.
Qed.

Lemma filter_none (f g : event -> bool) l :
  forallb g l = true ->
  (forall e, g e = true -> f e = false) ->
  List.filter f l = [].
Proof.
  intros Hg Hfg. induction l as [|e l IH]; [done|].
  cbn in *. apply andb_true_iff in Hg as [He Hl].
  rewrite (Hfg e He). by apply IH.
Qed.

Lemma samples_app m l1 l2 : samples m (l1 ++ l2) = samples m l1 ++ samples m l2.
Proof. unfold samples. apply flat_map_app. Qed.

Lemma samples_none m p g :
  forallb (from_GetProcessor p) g = true -> samples m g = [].
Proof.
  induction g as [|e g IH]; [done|]. cbn [forallb].
  intros [He Hg]%andb_true_iff. specialize (IH Hg).
  unfold samples in *. cbn [flat_map]. rewrite IH.
  by destruct e.
Qed.

(** Whatever a call of [GetProcessor] logs, it logs with the mutex held,
    and only events of its own. *)
Lemma GetProcessor_log s p s' :
  GetProcessor s = Ok p s' ->
  exists evs,
    log_ s' = log_ s ++ evs /\
    forallb (from_GetProcessor p) evs = true /\
    In (EvUsed p) evs /\
    forall rest, unguarded false (evs ++ rest) = unguarded false rest.
Proof.
  intros Hget.
  apply GetProcessor_Ok_inv in Hget as [(_ & _ & ->)|(_ & -> & _ & ->)];
    eexists; (split; [reflexivity|]); cbn [app forallb from_GetProcessor].
  - split; [|split].
    + rewrite forallb_app, forallb_scan_log by done. cbn.
      by rewrite Nat.eqb_refl.
    + do 2 right. apply in_or_app. right. by left.
    + intros rest. cbn. rewrite <- app_assoc.
      by rewrite unguarded_scan_log.
  - split; [|split].
    + rewrite forallb_app, forallb_scan_log by done. cbn.
      by rewrite Nat.eqb_refl.
    + do 2 right. apply in_or_app. right. do 4 right. by left.
    + intros rest. cbn. rewrite <- app_assoc.
      by rewrite unguarded_scan_log.
Qed.


Section HandleFacts.

Variable clock : nat -> MonoTime.
Variable ProcessCall : handle -> Slice -> option CQLResponse.

(** [Handle] runs to its end when [GetProcessor] returns and the
    processor leaves a response. *)
Lemma Handle_serves c s :
  Z.of_nat (pool_size s) + 10 <= INT_MAX ->
  (forall p, ProcessCall p (serialized_request c) <> None) ->
  exists p s1 r,
    GetProcessor (started clock s) = Ok p s1 /\
    ProcessCall p (serialized_request c) = Some r /\
    Handle clock ProcessCall (Some c) s =
      Ok tt {| processors_ :=
                 <[p := {| is_used_ := false |}]> (processors_ s1);
               capacity_ := capacity_ s1;
               ticks_ := 4 + ticks_ s;
               log_ := log_ s1 ++
                 served_log (clock (ticks_ s)) (clock (1 + ticks_ s)%nat)
                   (clock (2 + ticks_ s)%nat) (clock (3 + ticks_ s)%nat)
                   p c r |}.
Proof.
  intros Hfit Hresp.
  destruct (GetProcessor_returns (started clock s) Hfit)
    as (p & s1 & Hget).
  destruct (ProcessCall p (serialized_request c)) as [r|] eqn:Hr;
    [|by apply Hresp in Hr].
  exists p, s1, r. split; [done|]. split; [done|].
  rewrite Handle_eq. cbv zeta. by rewrite Hget, Hr.
Qed.

(** C3: [Handle] serializes one response into the buffer of the call,
    the one the processor left, result or error, and acknowledges the
    call to the transport once, after that; it returns nothing. *)
Theorem Handle_responds_once c s :
  Z.of_nat (pool_size s) + 10 <= INT_MAX ->
  (forall p, ProcessCall p (serialized_request c) <> None) ->
  exists p r s' evs,
    Handle clock ProcessCall (Some c) s = Ok tt s' /\
    log_ s' = log_ s ++ evs /\
    In (EvProcessCall p (serialized_request c)) evs /\
    ProcessCall p (serialized_request c) = Some r /\
    List.filter is_transport evs = [EvSerialize c r; EvRespondSuccess c] /\
    count is_serialize evs = 1%nat /\
    count is_respond evs = 1%nat.
Proof.
  intros Hfit Hresp.
  destruct (Handle_serves c s Hfit Hresp) as (p & s1 & r & Hget & Hr & ->).
  destruct (GetProcessor_log _ _ _ Hget) as (g & Hlog & Hg & _).
  exists p, r. eexists. exists ([EvNow (clock (ticks_ s))] ++ g ++
    served_log (clock (ticks_ s)) (clock (1 + ticks_ s)%nat)
      (clock (2 + ticks_ s)%nat) (clock (3 + ticks_ s)%nat) p c r).
  split; [reflexivity|]. cbn [log_]. rewrite Hlog. cbn [log_ started].
  split; [by rewrite <- !app_assoc|].
  split; [apply in_or_app; right; apply in_or_app; right; cbn; tauto|].
  split; [done|]. unfold count.
  rewrite !List.filter_app.
  rewrite !(filter_none _ _ g Hg) by (by intros []). done.
Qed.

(** C4: [Handle] releases the processor [GetProcessor] gave it, which
    is marked used until then, once, right after the acknowledgment of
    the response; the release clears the flag of that processor and of
    no other, and leaves it idle, for a later [GetProcessor] to
    return. *)
Theorem Handle_releases_once c s :
  Z.of_nat (pool_size s) + 10 <= INT_MAX ->
  (forall p, ProcessCall p (serialized_request c) <> None) ->
  exists p s1 s' evs l1 l2,
    GetProcessor (started clock s) = Ok p s1 /\
    busy s1 p /\
    Handle clock ProcessCall (Some c) s = Ok tt s' /\
    processors_ s' = <[p := {| is_used_ := false |}]> (processors_ s1) /\
    log_ s' = log_ s ++ evs /\
    evs = l1 ++ [EvRespondSuccess c; EvUnused p] ++ l2 /\
    In (EvUsed p) l1 /\
    List.filter is_unused evs = [EvUnused p] /\
    idle s' p /\
    exists q s'', GetProcessor s' = Ok q s'' /\ idle s' q /\ (p <= q)%nat.
Proof.
  intros Hfit Hresp.
  destruct (Handle_serves c s Hfit Hresp) as (p & s1 & r & Hget & Hr & ->).
  destruct (GetProcessor_log _ _ _ Hget) as (g & Hlog & Hg & Hin & _).
  apply GetProcessor_Ok_facts in Hget as Hfacts.
  destruct Hfacts as (Hbusy & _).
  exists p, s1. eexists.
  exists ([EvNow (clock (ticks_ s))] ++ g ++
    served_log (clock (ticks_ s)) (clock (1 + ticks_ s)%nat)
      (clock (2 + ticks_ s)%nat) (clock (3 + ticks_ s)%nat) p c r).
  exists ([EvNow (clock (ticks_ s))] ++ g ++
    firstn 5 (served_log (clock (ticks_ s)) (clock (1 + ticks_ s)%nat)
      (clock (2 + ticks_ s)%nat) (clock (3 + ticks_ s)%nat) p c r)).
  exists (skipn 7 (served_log (clock (ticks_ s)) (clock (1 + ticks_ s)%nat)
      (clock (2 + ticks_ s)%nat) (clock (3 + ticks_ s)%nat) p c r)).
  split; [done|]. split; [done|]. split; [reflexivity|].
  split; [reflexivity|]. cbn [log_]. rewrite Hlog.
  cbn [log_ started].
  split; [by rewrite <- !app_assoc|].
  split; [cbn; by rewrite <- !app_assoc|].
  split; [apply in_or_app; right; apply in_or_app; by left|].
  split.
  { rewrite !List.filter_app.
    rewrite !(filter_none _ _ g Hg) by (by intros []). done. }
  assert (idle {| processors_ :=
                    <[p := {| is_used_ := false |}]> (processors_ s1);
                  capacity_ := capacity_ s1;
                  ticks_ := 4 + ticks_ s;
                  log_ := log_ s ++ [EvNow (clock (ticks_ s))] ++ g ++
                    served_log (clock (ticks_ s)) (clock (1 + ticks_ s)%nat)
                      (clock (2 + ticks_ s)%nat) (clock (3 + ticks_ s)%nat)
                      p c r |} p) as Hidle.
  { unfold idle. cbn. apply list_lookup_insert_eq.
    by apply lookup_lt_Some in Hbusy. }
  split.
  { unfold idle in *. cbn in *. exact Hidle. }
  destruct (GetProcessor_reuses _ _ Hidle) as (q & s'' & Hq & (Hqi & _) & Hle).
  exists q, s''. cbn [log_ started] in *.
  rewrite <- !app_assoc. cbn [app] in *. by repeat split.
Qed.

(** C6, as the code has it: the sample of "time to process request" is
    the time from [start], read before [GetProcessor] is called, to
    [response_done], read after the response is sent and the processor
    released; the time of [GetProcessor] is part of it. *)
Theorem process_time_is_from_start c s :
  Z.of_nat (pool_size s) + 10 <= INT_MAX ->
  (forall p, ProcessCall p (serialized_request c) <> None) ->
  let start := clock (ticks_ s) in
  let got_processor := clock (1 + ticks_ s)%nat in
  let response_done := clock (3 + ticks_ s)%nat in
  exists p s' evs g l,
    Handle clock ProcessCall (Some c) s = Ok tt s' /\
    log_ s' = log_ s ++ evs /\
    evs = [EvNow start] ++ g ++ [EvNow got_processor] ++ l
            ++ [EvUnused p; EvNow response_done;
                EvIncrement time_to_process_request_
                  (ToMicroseconds (GetDeltaSince response_done start))]
            ++ [EvIncrement time_to_queue_cql_response_
                  (ToMicroseconds
                     (GetDeltaSince response_done
                                    (clock (2 + ticks_ s)%nat)))] /\
    forallb (from_GetProcessor p) g = true /\ In (EvUsed p) g /\
    samples time_to_process_request_ evs =
      [ToMicroseconds (GetDeltaSince response_done start)].
Proof.
  intros Hfit Hresp start got_processor response_done.
  destruct (Handle_serves c s Hfit Hresp) as (p & s1 & r & Hget & Hr & ->).
  destruct (GetProcessor_log _ _ _ Hget) as (g & Hlog & Hg & Hin & _).
  exists p. eexists. eexists. exists g.
  exists (firstn 5 (skipn 1
    (served_log (clock (ticks_ s)) (clock (1 + ticks_ s)%nat)
      (clock (2 + ticks_ s)%nat) (clock (3 + ticks_ s)%nat) p c r))).
  split; [reflexivity|]. cbn [log_]. rewrite Hlog. cbn [log_ started].
  split; [rewrite <- !app_assoc; reflexivity|].
  split; [reflexivity|]. split; [done|]. split; [done|].
  rewrite !samples_app, (samples_none _ _ _ Hg). reflexivity.
Qed.


End HandleFacts.

Lemma Handle_responds_once_witness :
  exists s',
    Handle example_clock example_ProcessCall (Some example_call)
      (pool_with [true; false]) = Ok tt s' /\
    count is_respond (log_ s') = 1%nat.
Proof.
  destruct (Handle_responds_once example_clock example_ProcessCall
              example_call (pool_with [true; false]))
    as (p & r & s' & evs & Hh & Hlog & _ & _ & _ & _ & Hc).
  { vm_compute. discriminate. }
  { intros p. discriminate. }
  exists s'. split; [exact Hh|]. rewrite Hlog. exact Hc.
Defined.

Lemma Handle_releases_once_witness :
  exists s1 s',
    busy s1 1 /\
    Handle example_clock example_ProcessCall (Some example_call)
      (pool_with [true; false]) = Ok tt s' /\
    idle s' 1.
Proof.
  destruct (Handle_releases_once example_clock example_ProcessCall
              example_call (pool_with [true; false]))
    as (p & s1 & s' & evs & l1 & l2 & Hget & Hbusy & Hh & _ & _ & _ & _ & _
        & Hidle & _).
  { vm_compute. discriminate. }
  { intros p. discriminate. }
  exists s1, s'. vm_compute in Hget. injection Hget as <- _.
  split; [exact Hbusy|]. split; [exact Hh | exact Hidle].
Defined.

Lemma process_time_is_from_start_witness :
  exists s',
    Handle example_clock example_ProcessCall (Some example_call) initial
      = Ok tt s' /\
    samples time_to_process_request_ (log_ s') = [90].
Proof.
  destruct (process_time_is_from_start example_clock example_ProcessCall
              example_call initial)
    as (p & s' & evs & g & l & Hh & Hlog & _ & _ & _ & Hs).
  { vm_compute. discriminate. }
  { intros p. discriminate. }
  exists s'. split; [exact Hh|]. rewrite Hlog. exact Hs.
Defined.

(** C6, as the spec has it, fails: with the clock reading 0 at the start
    of [Handle], 10 once [GetProcessor] has returned and 90 after the
    release, the sample is 90, not the 80 from the acquire checkpoint. *)
Lemma process_time_not_from_acquire :
  exists s',
    Handle example_clock example_ProcessCall (Some example_call) initial
      = Ok tt s' /\
    firstn 10 (log_ s') =
      [EvNow 0; EvLock; EvSize; EvSize; EvNew; EvReserve 10; EvEmplaceBack;
       EvUsed 0; EvUnlock; EvNow 10] /\
    samples time_to_process_request_ (log_ s') <>
      [ToMicroseconds (GetDeltaSince (example_clock 3) (example_clock 1))].
Proof.
  eexists. split; [vm_compute; reflexivity|].
  split; [reflexivity|]. vm_compute. discriminate.
Qed.



(** ** Sequences of operations *)

Lemma GetProcessor_size s :
  pool_size (state_of (GetProcessor s)) = pool_size s \/
  pool_size (state_of (GetProcessor s)) = S (pool_size s).
Proof.
  rewrite GetProcessor_eq. cbv zeta. unfold pool_size.
  destruct (pick _ _ _ _) as [p|]; cbn.
  - left. apply length_insert.
  - destruct (max_size <? _); cbn; [by left|].
    right. rewrite length_app. cbn. lia.
Qed.

Lemma write_flag_size b p s :
  pool_size (state_of (write_flag b p s)) = pool_size s.
Proof.
  unfold pool_size. destruct (processors_ s !! p) as [c|] eqn:Hc.
  - rewrite (write_flag_eq _ _ _ _ Hc). cbn. apply length_insert.
  - by rewrite (write_flag_bad _ _ _ Hc).
Qed.

Lemma not_used_by_other p q evs :
  p <> q -> forallb (from_GetProcessor q) evs = true -> ~ In (EvUsed p) evs.
Proof.
  intros Hne Hall Hin. rewrite forallb_forall in Hall.
  apply Hall in Hin. cbn in Hin. apply Nat.eqb_eq in Hin. done.
Qed.

Section Sequences.

Variable clock : nat -> MonoTime.
Variable ProcessCall : handle -> Slice -> option CQLResponse.

Lemma Handle_size c s :
  (pool_size s <= pool_size (state_of (Handle clock ProcessCall (Some c) s)))%nat.
Proof.
  rewrite Handle_eq. cbv zeta.
  pose proof (GetProcessor_size (started clock s)) as Hsize.
  destruct (GetProcessor _) as [p s1|f s1]; cbn in Hsize.
  - destruct (ProcessCall _ _); unfold pool_size in *; cbn in *;
      rewrite ?length_insert; lia.
  - unfold pool_size in *; cbn in *; lia.
Qed.

Lemma run_size ops : forall s,
  (pool_size s <= pool_size (state_of (run clock ProcessCall ops s)))%nat.
Proof.
  induction ops as [|o ops IH]; intros s; [done|].
  destruct o as [|p|c]; cbn [run]; unfold bind at 1.
  - pose proof (GetProcessor_size s) as Hsize.
    destruct (GetProcessor s) as [p s1|f s1]; cbn in Hsize; [|cbn; lia].
    specialize (IH s1). unfold bind at 1.
    destruct (run clock ProcessCall ops s1); cbn in *; lia.
  - pose proof (write_flag_size false p s) as Hsize. unfold unused.
    destruct (write_flag false p s) as [[] s1|f s1]; cbn in Hsize; [|cbn; lia].
    specialize (IH s1). lia.
  - pose proof (Handle_size c s) as Hsize.
    destruct (Handle clock ProcessCall (Some c) s) as [[] s1|f s1];
      cbn in Hsize; [|cbn; lia].
    specialize (IH s1). lia.
Qed.

(** A processor that is busy stays busy, and is given to nobody, for as
    long as no [unused()] is called on it. *)
Lemma run_keeps p ops : forall s hs s',
  busy s p ->
  ~ In (Release p) ops ->
  run clock ProcessCall ops s = Ok hs s' ->
  busy s' p /\ ~ In p hs /\
  exists evs, log_ s' = log_ s ++ evs /\ ~ In (EvUsed p) evs.
Proof.
  induction ops as [|o ops IH]; intros s hs s' Hbusy Hrel Hrun.
  - injection Hrun as <- <-. split; [done|]. split; [by intros []|].
    exists []. split; [by rewrite app_nil_r|by intros []].
  - assert (~ In (Release p) ops) as Hrel' by (intros ?; apply Hrel; by right).
    destruct o as [|q|c]; cbn [run] in Hrun; unfold bind at 1 in Hrun.
    + destruct (GetProcessor s) as [q s1|f s1] eqn:Hget; [|done].
      unfold bind at 1 in Hrun.
      destruct (run clock ProcessCall ops s1) as [hs1 s2|] eqn:Hrun1; [|done].
      injection Hrun as <- <-.
      destruct (GetProcessor_log _ _ _ Hget) as (g & Hlog & Hg & _).
      apply GetProcessor_Ok_facts in Hget as (_ & Hq & _ & _ & Hother).
      assert (p <> q) as Hne by (by intros ->).
      destruct (IH s1 hs1 s2) as (Hb & Hnot & evs & Hlog2 & Hevs); try done.
      { unfold busy in *. by rewrite Hother. }
      split; [done|]. split; [intros [?|?]; by subst|].
      exists (g ++ evs). split; [by rewrite Hlog2, Hlog, app_assoc|].
      intros [?|?]%in_app_or; [|done].
      by eapply not_used_by_other.
    + assert (p <> q) as Hne by (intros ->; apply Hrel; by left).
      unfold unused in Hrun.
      destruct (processors_ s !! q) as [c|] eqn:Hc.
      2: { by rewrite (write_flag_bad _ _ _ Hc) in Hrun. }
      rewrite (write_flag_eq _ _ _ _ Hc) in Hrun.
      apply IH in Hrun as (Hb & Hnot & evs & Hlog2 & Hevs); try done.
      * split; [done|]. split; [done|]. cbn [log_] in Hlog2.
        exists ([EvUnused q] ++ evs).
        split; [by rewrite Hlog2, app_assoc|].
        intros [[?|[]]|?]%in_app_or; done.
      * unfold busy in *. cbn. by rewrite list_lookup_insert_ne.
    + rewrite Handle_eq in Hrun. cbv zeta in Hrun.
      destruct (GetProcessor _) as [q s1|f s1] eqn:Hget; [|done].
      destruct (ProcessCall _ _) as [r|]; [|done].
      destruct (GetProcessor_log _ _ _ Hget) as (g & Hlog & Hg & _).
      apply GetProcessor_Ok_facts in Hget as (_ & Hq & _ & _ & Hother).
      assert (p <> q) as Hne by (by intros ->).
      apply IH in Hrun as (Hb & Hnot & evs & Hlog2 & Hevs); try done.
      * split; [done|]. split; [done|]. cbn [log_ started] in *.
        eexists. split.
        { rewrite Hlog2, Hlog, <- !app_assoc. reflexivity. }
        intros [[?|[]]|[?|[?|?]%in_app_or]%in_app_or]%in_app_or;
          try done.
        -- by eapply not_used_by_other.
        -- cbn in H. intuition discriminate.
      * unfold busy in *. cbn. rewrite list_lookup_insert_ne by done.
        by rewrite Hother.
Qed.

Lemma not_Release_in_Acquires p M : ~ In (Release p) (repeat Acquire M).
Proof. by intros ?%repeat_spec. Qed.

Lemma run_acquires M : forall s,
  Z.of_nat (pool_size s + M) + 10 <= INT_MAX ->
  exists hs s',
    run clock ProcessCall (repeat Acquire M) s = Ok hs s' /\
    length hs = M /\ List.NoDup hs /\ (forall p, In p hs -> busy s' p).
Proof.
  induction M as [|M IH]; intros s Hfit.
  - exists [], s. repeat split; [constructor|by intros ? []].
  - destruct (GetProcessor_returns s) as (p & s1 & Hget); [lia|].
    pose proof (GetProcessor_size s) as Hsize. rewrite Hget in Hsize.
    cbn in Hsize.
    destruct (IH s1) as (hs & s' & Hrun & Hlen & Hnd & Hbusy); [lia|].
    apply GetProcessor_Ok_facts in Hget as Hfacts.
    destruct Hfacts as (Hp & _).
    destruct (run_keeps p _ _ _ _ Hp (not_Release_in_Acquires p M) Hrun)
      as (Hp' & Hnot & _).
    exists (p :: hs), s'. cbn [repeat run]. unfold bind at 1.
    rewrite Hget. unfold bind at 1. rewrite Hrun.
    split; [done|]. split; [cbn; lia|].
    split; [by constructor|]. intros q [<-|Hq]; [done|by apply Hbusy].
Qed.

(** C1: once [GetProcessor] has returned a processor, marked used, no
    later call of [GetProcessor], by a caller or inside [Handle], returns
    or marks that processor, whatever is acquired, called and released in
    between, until [unused()] is called on it. *)
Theorem no_processor_given_twice s p s1 ops hs s2 :
  GetProcessor s = Ok p s1 ->
  ~ In (Release p) ops ->
  run clock ProcessCall ops s1 = Ok hs s2 ->
  busy s1 p /\ ~ In p hs /\ busy s2 p /\
  exists evs, log_ s2 = log_ s1 ++ evs /\ ~ In (EvUsed p) evs.
Proof.
  intros Hget Hrel Hrun.
  apply GetProcessor_Ok_facts in Hget as (Hbusy & _).
  destruct (run_keeps p ops _ _ _ Hbusy Hrel Hrun) as (? & ? & ?).
  by repeat split.
Qed.

(** C8: no sequence of [GetProcessor], [Handle] and [unused()] makes the
    pool smaller; [GetProcessor] leaves its size or adds one, [unused()]
    leaves it; [M] acquisitions with no release return [M] different
    processors, so that the pool holds at least [M]. *)
Theorem pool_never_shrinks :
  (forall ops s,
     (pool_size s <= pool_size (state_of (run clock ProcessCall ops s)))%nat) /\
  (forall s,
     pool_size (state_of (GetProcessor s)) = pool_size s \/
     pool_size (state_of (GetProcessor s)) = S (pool_size s)) /\
  (forall p s, pool_size (state_of (unused p s)) = pool_size s) /\
  (forall M s,
     Z.of_nat (pool_size s + M) + 10 <= INT_MAX ->
     exists hs s',
       run clock ProcessCall (repeat Acquire M) s = Ok hs s' /\
       length hs = M /\ List.NoDup hs /\ (M <= pool_size s')%nat).
Proof.
  split; [intros; apply run_size|].
  split; [apply GetProcessor_size|].
  split; [intros; apply write_flag_size|].
  intros M s Hfit.
  destruct (run_acquires M s Hfit) as (hs & s' & Hrun & Hlen & Hnd & Hbusy).
  exists hs, s'. repeat split; try done.
  rewrite <- Hlen, <- (length_seq (pool_size s') 0).
  apply NoDup_incl_length; [done|].
  intros p Hp. apply in_seq. apply Hbusy in Hp.
  apply lookup_lt_Some in Hp. unfold pool_size. lia.
Qed.

End Sequences.

Lemma no_processor_given_twice_witness :
  exists hs s2,
    run example_clock example_ProcessCall
      [Acquire; Call example_call; Release 2%nat; Acquire]
      (pool_with [true; true]) = Ok hs s2 /\
    ~ In 1%nat hs /\ busy s2 1.
Proof.
  destruct (GetProcessor (pool_with [true; false])) as [p s1|] eqn:Hget;
    [|vm_compute in Hget; discriminate].
  destruct (no_processor_given_twice example_clock example_ProcessCall
              (pool_with [true; false]) p s1
              [Acquire; Call example_call; Release 2%nat; Acquire]
              [2%nat; 3%nat]
              (state_of (run example_clock example_ProcessCall
                 [Acquire; Call example_call; Release 2%nat; Acquire] s1)))
    as (_ & Hnot & Hbusy & _).
  - exact Hget.
  - vm_compute in Hget. injection Hget as <- _.
    intros [?|[?|[?|[?|[]]]]]; discriminate.
  - vm_compute in Hget. injection Hget as <- <-. vm_compute. reflexivity.
  - vm_compute in Hget. injection Hget as <- <-.
    eexists. eexists. split; [vm_compute; reflexivity|].
    split; [exact Hnot | exact Hbusy].
Defined.

Lemma pool_never_shrinks_witness :
  exists hs s',
    run example_clock example_ProcessCall (repeat Acquire 3) (pool_with [false])
      = Ok hs s' /\
    (3 <= pool_size s')%nat.
Proof.
  destruct (pool_never_shrinks example_clock example_ProcessCall)
    as (_ & _ & _ & H).
  destruct (H 3%nat (pool_with [false])) as (hs & s' & Hrun & _ & _ & Hsize).
  { vm_compute. discriminate. }
  exists hs, s'. split; [exact Hrun | exact Hsize].
Defined.

(** ** The constructor *)

(** [reserve] changes the capacity, not the size: the loop of the
    constructor runs over an empty vector and resets nothing. *)
Lemma CQLServiceImpl_ctor_eq n :
  0 <= n <= max_size ->
  CQLServiceImpl_ctor n initial =
    Ok tt {| processors_ := []; capacity_ := n; ticks_ := 0;
             log_ := [EvReserve n; EvSize] |}.
Proof.
  intros Hn. unfold CQLServiceImpl_ctor. unfold bind at 1.
  assert (to_size_t n = n) as ->
    by (unfold to_size_t; apply Z.mod_small; unfold max_size in *; lia).
  rewrite reserve_eq. destruct (max_size <? n) eqn:Hmax; [lia|].
  unfold size. run_step. cbn [reset_each length]. unfold ret. do 2 f_equal.
  cbn. destruct (0 <? n) eqn:H0; [done|]. lia.
Qed.

(** C5, on the code: constructed with [cql_service_num_threads] = 3, the
    service holds room for three processors and no processor; of two
    calls handled one after the other, the first creates a processor and
    the second uses it again, and the pool ends with one processor. *)
Theorem constructor_creates_no_processor :
  CQLServiceImpl_ctor 3 initial =
    Ok tt {| processors_ := []; capacity_ := 3; ticks_ := 0;
             log_ := [EvReserve 3; EvSize] |} /\
  exists s',
    (CQLServiceImpl_ctor 3 ;;
     run example_clock example_ProcessCall
       [Call example_call; Call example_call]) initial = Ok [] s' /\
    processors_ s' = [{| is_used_ := false |}] /\
    count is_new (log_ s') = 1%nat.
Proof.
  split; [apply CQLServiceImpl_ctor_eq; unfold max_size; lia|].
  eexists. split; [vm_compute; reflexivity|]. split; reflexivity.
Qed.

(** * More on the constructor, [GetProcessor] and [Handle] *)

(** ** The constructor, for every value of the flag *)

(** X1: whatever the flag and however the constructor ends, it
    constructs no processor and leaves the pool empty: [reserve] changes
    the capacity and not the size, and the loop runs over an empty
    vector.  When it returns, it has called [reserve] once and read the
    bounds of the vector, and the capacity is the flag as a [size_t]. *)
Theorem constructor_leaves_pool_empty n :
  processors_ (state_of (CQLServiceImpl_ctor n initial)) = [] /\
  count is_new (log_ (state_of (CQLServiceImpl_ctor n initial))) = 0%nat /\
  forall s',
    CQLServiceImpl_ctor n initial = Ok tt s' ->
    log_ s' = [EvReserve (to_size_t n); EvSize] /\
    capacity_ s' = to_size_t n /\
    to_size_t n <= max_size /\
    forall i, ~ idle s' i.
Proof.
  unfold CQLServiceImpl_ctor. unfold bind at 1 3 5. rewrite reserve_eq.
  destruct (max_size <? to_size_t n) eqn:Hmax; [by repeat split|].
  apply Z.ltb_ge in Hmax.
  assert (0 <= to_size_t n) as Hpos
    by (unfold to_size_t; apply Z.mod_pos_bound; lia).
  unfold size. run_step. cbn [reset_each length state_of]. unfold ret.
  cbn [processors_ log_ state_of].
  split; [done|]. split; [done|]. intros s' [= <-].
  cbn [log_ capacity_ processors_]. split; [done|]. split.
  - cbn. destruct (0 <? to_size_t n) eqn:H0; [done|].
    apply Z.ltb_ge in H0. lia.
  - split; [done|]. intros i Hi. unfold idle in Hi. cbn in Hi.
    by rewrite lookup_nil in Hi.
Qed.

Lemma constructor_leaves_pool_empty_witness :
  exists s', CQLServiceImpl_ctor 16 initial = Ok tt s' /\ capacity_ s' = 16.
Proof.
  destruct (CQLServiceImpl_ctor 16 initial) as [[] s'|f s'] eqn:Hc;
    [|vm_compute in Hc; discriminate].
  destruct (constructor_leaves_pool_empty 16) as (_ & _ & H).
  rewrite Hc in H. destruct (H s' eq_refl) as (_ & Hcap & _).
  exists s'. split; [reflexivity | exact Hcap].
Defined.

(** X2: a negative flag becomes a [size_t] above [max_size()]: [reserve]
    throws, and the constructor ends there, the pool untouched. *)
Theorem constructor_negative_flag_throws n :
  - 2 ^ 31 <= n < 0 ->
  CQLServiceImpl_ctor n initial =
    Stop LengthError
      {| processors_ := []; capacity_ := 0; ticks_ := 0;
         log_ := [EvReserve (2 ^ 64 + n)] |}.
Proof.
  intros Hn. unfold CQLServiceImpl_ctor. unfold bind at 1.
  assert (to_size_t n = 2 ^ 64 + n) as ->.
  { unfold to_size_t. symmetry. apply (Z.mod_unique_pos _ _ (-1)); lia. }
  rewrite reserve_eq.
  destruct (max_size <? 2 ^ 64 + n) eqn:Hmax; [done|].
  apply Z.ltb_ge in Hmax. unfold max_size in Hmax. lia.
Qed.

Lemma constructor_negative_flag_throws_witness :
  state_of (CQLServiceImpl_ctor (-1) initial) =
    {| processors_ := []; capacity_ := 0; ticks_ := 0;
       log_ := [EvReserve 18446744073709551615] |}.
Proof.
  rewrite (constructor_negative_flag_throws (-1)).
  - reflexivity.
  - vm_compute. split; [discriminate|reflexivity].
Defined.

(** ** What [Handle] leaves of the pool *)

Section HandleAndThePool.

Variable clock : nat -> MonoTime.
Variable ProcessCall : handle -> Slice -> option CQLResponse.

Lemma idle_started s i : idle (started clock s) i <-> idle s i.
Proof. done. Qed.

Lemma Handle_on_idle c s i :
  idle s i ->
  (forall p, ProcessCall p (serialized_request c) <> None) ->
  exists s',
    Handle clock ProcessCall (Some c) s = Ok tt s' /\
    processors_ s' = processors_ s /\
    capacity_ s' = capacity_ s /\
    ticks_ s' = (4 + ticks_ s)%nat.
Proof.
  intros Hi Hresp.
  destruct (GetProcessor_reuses (started clock s) i Hi)
    as (p & s1 & Hget & (Hp & _ & ->) & _).
  rewrite Handle_eq. cbv zeta. rewrite Hget.
  destruct (ProcessCall p (serialized_request c)) as [r|] eqn:Hr;
    [|by apply Hresp in Hr].
  eexists. split; [reflexivity|]. cbn. repeat split.
  rewrite list_insert_insert_eq. by apply list_insert_id.
Qed.

Lemma Handle_on_busy c s :
  (forall i, ~ idle s i) ->
  Z.of_nat (pool_size s) + 10 <= INT_MAX ->
  (forall p, ProcessCall p (serialized_request c) <> None) ->
  exists s',
    Handle clock ProcessCall (Some c) s = Ok tt s' /\
    processors_ s' = processors_ s ++ [{| is_used_ := false |}] /\
    ticks_ s' = (4 + ticks_ s)%nat.
Proof.
  intros Hnone Hfit Hresp.
  destruct (GetProcessor_grows (started clock s) Hnone Hfit)
    as (s1 & Hget & (_ & _ & _ & ->)).
  rewrite Handle_eq. cbv zeta. rewrite Hget.
  destruct (ProcessCall _ _) as [r|] eqn:Hr; [|by apply Hresp in Hr].
  eexists. split; [reflexivity|]. cbn. split; [|done].
  unfold pool_size. cbn.
  rewrite insert_app_r_alt by reflexivity. by rewrite Nat.sub_diag.
Qed.

(** X3: [Handle] gives the pool back as it found it: the flag it set is
    cleared again and no other flag changes; when every processor was
    busy, the one it created stays in the pool, idle. *)
Theorem Handle_restores_the_pool c s :
  Z.of_nat (pool_size s) + 10 <= INT_MAX ->
  (forall p, ProcessCall p (serialized_request c) <> None) ->
  exists s',
    Handle clock ProcessCall (Some c) s = Ok tt s' /\
    ((exists i, idle s i) -> processors_ s' = processors_ s) /\
    ((forall i, ~ idle s i) ->
       processors_ s' = processors_ s ++ [{| is_used_ := false |}]) /\
    (forall q, busy s q <-> busy s' q).
Proof.
  intros Hfit Hresp. destruct (idle_or_all_busy s) as [[i Hi]|Hnone].
  - destruct (Handle_on_idle c s i Hi Hresp) as (s' & Hh & Hps & _).
    exists s'. split; [done|]. split; [done|].
    split; [intros Hn; by apply Hn in Hi|].
    intros q. unfold busy. by rewrite Hps.
  - destruct (Handle_on_busy c s Hnone Hfit Hresp) as (s' & Hh & Hps & _).
    exists s'. split; [done|].
    split; [intros [i Hi]; by apply Hnone in Hi|]. split; [done|].
    intros q. unfold busy. rewrite Hps. split.
    + intros Hq. rewrite lookup_app_l; [done|by eapply lookup_lt_Some].
    + intros Hq. destruct (decide (q < length (processors_ s))%nat) as [Hlt|Hge].
      * by rewrite lookup_app_l in Hq.
      * apply lookup_lt_Some in Hq as Hlt. rewrite length_app in Hlt.
        cbn in Hlt. assert (q = length (processors_ s)) as -> by lia.
        by rewrite list_lookup_middle in Hq.
Qed.

Lemma filter_scan_log f n :
  (forall q, f (EvIsUsed q) = false) -> List.filter f (scan_log n) = [].
Proof.
  intros Hf. unfold scan_log.
  induction (seq 0 n) as [|q l IH]; [done|]. cbn. by rewrite Hf.
Qed.

Lemma pick_after_growth ps :
  (forall q, (q < length ps)%nat -> ps !! q = Some {| is_used_ := true |}) ->
  pick (ps ++ [{| is_used_ := false |}]) 0
       (length (ps ++ [{| is_used_ := false |}])) None = Some (length ps).
Proof.
  intros Hall. destruct (pick _ _ _ _) as [p|] eqn:Hp.
  - apply pick_all_Some in Hp as [Hp _]. f_equal.
    destruct (decide (p < length ps)%nat) as [Hlt|Hge].
    + rewrite lookup_app_l in Hp by done. by rewrite Hall in Hp.
    + apply lookup_lt_Some in Hp as Hlt. rewrite length_app in Hlt.
      cbn in Hlt. lia.
  - assert (length ps < length (ps ++ [{| is_used_ := false |}]))%nat as Hlt
      by (rewrite length_app; cbn; lia).
    pose proof (pick_all_None _ Hp (length ps) Hlt) as Hn.
    by rewrite list_lookup_middle in Hn.
Qed.

(** [Handle] on a pool in which the scan finds [p]: the call is
    processed by [p], and the pool is as before. *)
Lemma Handle_on_pick c s p :
  pick (processors_ s) 0 (length (processors_ s)) None = Some p ->
  (forall q, ProcessCall q (serialized_request c) <> None) ->
  exists s' evs,
    Handle clock ProcessCall (Some c) s = Ok tt s' /\
    processors_ s' = processors_ s /\
    log_ s' = log_ s ++ evs /\
    List.filter is_process_call evs
      = [EvProcessCall p (serialized_request c)] /\
    List.filter is_used_event evs = [EvUsed p].
Proof.
  intros Hp Hresp. pose proof (pick_all_Some _ _ Hp) as [Hidle _].
  rewrite Handle_eq, GetProcessor_eq. cbv zeta.
  cbn [processors_ started]. rewrite Hp.
  destruct (ProcessCall p (serialized_request c)) as [r|] eqn:Hr;
    [|by apply Hresp in Hr].
  eexists. eexists. split; [reflexivity|]. cbn [processors_ log_ started].
  split; [rewrite list_insert_insert_eq; by apply list_insert_id|].
  split; [rewrite <- !app_assoc; reflexivity|].
  rewrite !List.filter_app, !filter_scan_log by done. by split.
Qed.

Lemma calls_on_pick p cs : forall s,
  pick (processors_ s) 0 (length (processors_ s)) None = Some p ->
  (forall q r, ProcessCall q r <> None) ->
  exists s' evs,
    run clock ProcessCall (map Call cs) s = Ok [] s' /\
    processors_ s' = processors_ s /\
    log_ s' = log_ s ++ evs /\
    List.filter is_process_call evs
      = map (fun c => EvProcessCall p (serialized_request c)) cs /\
    List.filter is_used_event evs = map (fun _ => EvUsed p) cs.
Proof.
  induction cs as [|c cs IH]; intros s Hp Hresp.
  - exists s, []. cbn. by rewrite app_nil_r.
  - destruct (Handle_on_pick c s p Hp (fun q => Hresp q _))
      as (s1 & evs1 & Hh & Hps & Hlog & Hpc & Hus).
    destruct (IH s1) as (s' & evs & Hrun & Hps' & Hlog' & Hpc' & Hus');
      [by rewrite Hps|done|].
    exists s', (evs1 ++ evs). cbn [map run]. unfold bind at 1. rewrite Hh.
    split; [done|]. split; [congruence|].
    split; [by rewrite Hlog', Hlog, app_assoc|].
    rewrite !List.filter_app, Hpc, Hus, Hpc', Hus'. by split.
Qed.

(** X4: calls handled one after the other share one processor: every
    one of them is given, and processed by, the same processor [p], the
    idle processor of the highest slot when there is one and a new one,
    created by the first call, when there is none; the pool ends as it
    was in the first case and with that one more processor, idle, in the
    second. *)
Theorem sequential_calls_share_a_processor c cs s :
  Z.of_nat (pool_size s) + 10 <= INT_MAX ->
  (forall p r, ProcessCall p r <> None) ->
  exists p s' evs,
    run clock ProcessCall (map Call (c :: cs)) s = Ok [] s' /\
    log_ s' = log_ s ++ evs /\
    List.filter is_process_call evs
      = map (fun c' => EvProcessCall p (serialized_request c')) (c :: cs) /\
    List.filter is_used_event evs = map (fun _ => EvUsed p) (c :: cs) /\
    ((exists i, idle s i) ->
       idle s p /\ (forall q, idle s q -> (q <= p)%nat) /\
       processors_ s' = processors_ s) /\
    ((forall i, ~ idle s i) ->
       p = pool_size s /\
       processors_ s' = processors_ s ++ [{| is_used_ := false |}]).
Proof.
  intros Hfit Hresp.
  destruct (pick (processors_ s) 0 (length (processors_ s)) None)
    as [p|] eqn:Hp.
  - destruct (calls_on_pick p (c :: cs) s Hp Hresp)
      as (s' & evs & Hrun & Hps & Hlog & Hpc & Hus).
    pose proof (pick_all_Some _ _ Hp) as [Hidle Hlater].
    exists p, s', evs. do 4 (split; [done|]). split.
    + intros _. split; [done|]. split; [|done].
      intros q Hq. destruct (decide (q <= p)%nat) as [|Hgt]; [done|].
      pose proof (lookup_lt_Some _ _ _ Hq).
      unfold idle in Hq. rewrite Hlater in Hq by lia. done.
    + intros Hnone. by apply Hnone in Hidle.
  - pose proof (pick_all_None _ Hp) as Hall.
    assert (forall i, ~ idle s i) as Hnone.
    { intros i Hi. pose proof (lookup_lt_Some _ _ _ Hi).
      unfold idle in Hi. rewrite Hall in Hi by done. done. }
    destruct (GetProcessor_grows (started clock s) Hnone Hfit)
      as (s0 & Hget & (_ & _ & _ & Hs0)).
    destruct (ProcessCall (pool_size s) (serialized_request c)) as [r|] eqn:Hr;
      [|by apply Hresp in Hr].
    pose proof (Handle_eq clock ProcessCall c s) as Hh. cbv zeta in Hh.
    rewrite Hget in Hh. change (pool_size (started clock s)) with (pool_size s) in Hh.
    rewrite Hr, Hs0 in Hh. cbn [processors_ capacity_ log_ started] in Hh.
    unfold pool_size in Hh.
    rewrite insert_app_r_alt, Nat.sub_diag in Hh by reflexivity.
    cbn [insert list_insert] in Hh.
    match type of Hh with _ = Ok tt ?st => set (s1 := st) in * end.
    destruct (calls_on_pick (length (processors_ s)) cs s1)
      as (s' & evs & Hrun & Hps & Hlog & Hpc & Hus); [|done|].
    { subst s1. cbn [processors_]. by apply pick_after_growth. }
    exists (pool_size s), s'. eexists.
    cbn [map run]. unfold bind at 1. rewrite Hh.
    split; [done|]. rewrite Hlog. subst s1. cbn [log_ processors_] in *.
    split; [rewrite <- !app_assoc; reflexivity|].
    rewrite !List.filter_app, !filter_scan_log by done.
    rewrite Hpc, Hus. unfold pool_size. cbn.
    split; [done|]. split; [done|].
    split; [intros [i Hi]; by apply Hnone in Hi|].
    intros _. by split.
Qed.

(** X5: when the processor leaves no response, [Handle] stops at the
    [CHECK] of [SendResponse]: the request has been processed, nothing is
    serialized or acknowledged, [unused()] is not called and the
    processor stays marked used. *)
Theorem Handle_without_response c s :
  Z.of_nat (pool_size s) + 10 <= INT_MAX ->
  (forall p, ProcessCall p (serialized_request c) = None) ->
  exists p s' evs,
    Handle clock ProcessCall (Some c) s = Stop CheckFailed s' /\
    log_ s' = log_ s ++ evs /\
    In (EvProcessCall p (serialized_request c)) evs /\
    count is_transport evs = 0%nat /\
    count is_unused evs = 0%nat /\
    samples time_to_process_request_ evs = [] /\
    busy s' p.
Proof.
  intros Hfit Hnull.
  destruct (GetProcessor_returns (started clock s) Hfit) as (p & s1 & Hget).
  destruct (GetProcessor_log _ _ _ Hget) as (g & Hlog & Hg & _).
  apply GetProcessor_Ok_facts in Hget as Hfacts. destruct Hfacts as (Hbusy & _).
  exists p. rewrite Handle_eq. cbv zeta. rewrite Hget, Hnull.
  eexists. eexists. split; [reflexivity|]. cbn [log_]. rewrite Hlog.
  cbn [log_ started]. split; [rewrite <- !app_assoc; reflexivity|].
  split; [apply in_or_app; right; apply in_or_app; right; cbn; tauto|].
  unfold count. rewrite !List.filter_app, !samples_app.
  rewrite !(filter_none _ _ g Hg) by (by intros []).
  rewrite (samples_none _ _ _ Hg). by repeat split.
Qed.

(** X6: the three samples of one [Handle], on a clock that never goes back:
    none is negative, and the time to process the request covers the
    time to get the processor and the time to queue the response. *)
Theorem Handle_samples c s :
  Z.of_nat (pool_size s) + 10 <= INT_MAX ->
  (forall p, ProcessCall p (serialized_request c) <> None) ->
  monotonic clock ->
  exists s' evs get process queue,
    Handle clock ProcessCall (Some c) s = Ok tt s' /\
    log_ s' = log_ s ++ evs /\
    ticks_ s' = (4 + ticks_ s)%nat /\
    samples time_to_get_cql_processor_ evs = [get] /\
    samples time_to_process_request_ evs = [process] /\
    samples time_to_queue_cql_response_ evs = [queue] /\
    get = clock (1 + ticks_ s)%nat - clock (ticks_ s) /\
    queue = clock (3 + ticks_ s)%nat - clock (2 + ticks_ s)%nat /\
    0 <= get /\ 0 <= queue /\ get + queue <= process.
Proof.
  intros Hfit Hresp Hmono.
  destruct (Handle_serves clock ProcessCall c s Hfit Hresp)
    as (p & s1 & r & Hget & Hr & ->).
  destruct (GetProcessor_log _ _ _ Hget) as (g & Hlog & Hg & _).
  eexists. eexists. eexists. eexists. eexists.
  split; [reflexivity|]. cbn [log_ ticks_]. rewrite Hlog. cbn [log_ started].
  split; [rewrite <- !app_assoc; reflexivity|]. split; [done|].
  rewrite !samples_app, !(samples_none _ _ _ Hg).
  do 3 (split; [reflexivity|]).
  unfold ToMicroseconds, GetDeltaSince.
  pose proof (Hmono (ticks_ s)). pose proof (Hmono (S (ticks_ s))).
  pose proof (Hmono (S (S (ticks_ s)))). cbn [Nat.add]. lia.
Qed.

End HandleAndThePool.

Lemma Handle_restores_the_pool_witness :
  exists s',
    Handle example_clock example_ProcessCall (Some example_call)
      (pool_with [true; false; true]) = Ok tt s' /\
    processors_ s' = map mkCQLProcessor [true; false; true].
Proof.
  destruct (Handle_restores_the_pool example_clock example_ProcessCall
              example_call (pool_with [true; false; true]))
    as (s' & Hh & Hsame & _).
  { vm_compute. discriminate. }
  { intros p. discriminate. }
  exists s'. split; [exact Hh|]. apply Hsame. exists 1%nat. reflexivity.
Defined.

Lemma sequential_calls_share_a_processor_witness :
  exists s' evs,
    run example_clock example_ProcessCall
      (map Call [example_call; example_call; example_call])
      (pool_with [false; false; true]) = Ok [] s' /\
    log_ s' = evs /\
    List.filter is_used_event evs = [EvUsed 1%nat; EvUsed 1%nat; EvUsed 1%nat].
Proof.
  destruct (sequential_calls_share_a_processor example_clock
              example_ProcessCall example_call
              [example_call; example_call] (pool_with [false; false; true]))
    as (p & s' & evs & Hrun & Hlog & _ & Hus & Hidle & _).
  { vm_compute. discriminate. }
  { intros p r. discriminate. }
  destruct Hidle as (Hp & Hmax & _); [by exists 0%nat|].
  assert (p = 1%nat) as ->.
  { destruct p as [|[|[|p]]]; [|reflexivity|discriminate Hp|discriminate Hp].
    specialize (Hmax 1%nat eq_refl). lia. }
  exists s', evs. split; [exact Hrun|]. split; [exact Hlog | exact Hus].
Defined.

Lemma Handle_without_response_witness :
  exists s',
    Handle example_clock (fun _ _ => None) (Some example_call)
      (pool_with [false]) = Stop CheckFailed s' /\
    busy s' 0.
Proof.
  destruct (Handle_without_response example_clock (fun _ _ => None)
              example_call (pool_with [false]))
    as (p & s' & evs & Hh & _ & _ & _ & _ & _ & Hbusy).
  { vm_compute. discriminate. }
  { reflexivity. }
  exists s'. split; [exact Hh|].
  vm_compute in Hh. injection Hh as <-. reflexivity.
Defined.

Lemma Handle_samples_witness :
  exists s' evs,
    Handle example_clock example_ProcessCall (Some example_call) initial
      = Ok tt s' /\
    log_ s' = evs /\
    samples time_to_get_cql_processor_ evs = [10] /\
    samples time_to_queue_cql_response_ evs = [50].
Proof.
  destruct (Handle_samples example_clock example_ProcessCall
              example_call initial)
    as (s' & evs & g & pr & q & Hh & Hlog & _ & Hg & _ & Hq & -> & -> & _).
  { vm_compute. discriminate. }
  { intros p. discriminate. }
  { intros n. unfold example_clock. nia. }
  exists s', evs. split; [exact Hh|]. split; [exact Hlog|].
  split; [exact Hg | exact Hq].
Defined.

(** ** The mutex *)

Lemma held_after_app h l1 l2 :
  held_after h (l1 ++ l2) = held_after (held_after h l1) l2.
Proof.
  revert h. induction l1 as [|e l1 IH]; intros h; [done|].
  destruct e; cbn; apply IH.
Qed.

Lemma locked_events_app h l1 l2 :
  locked_events h (l1 ++ l2) =
    locked_events h l1 ++ locked_events (held_after h l1) l2.
Proof.
  revert h. induction l1 as [|e l1 IH]; intros h; [done|].
  destruct e, h; cbn; by rewrite IH.
Qed.

Lemma held_after_scan_log h n : held_after h (scan_log n) = h.
Proof. unfold scan_log. by induction (seq 0 n). Qed.

Lemma forallb_locked_events f h l :
  forallb f l = true -> forallb f (locked_events h l) = true.
Proof.
  revert h. induction l as [|e l IH]; intros h; [done|].
  cbn [forallb]. intros [He Hl]%andb_true_iff.
  destruct e, h; cbn; rewrite ?He; cbn; auto.
Qed.

(** However [GetProcessor] ends, it hands the mutex back. *)
Lemma GetProcessor_frees_the_mutex s :
  exists evs,
    log_ (state_of (GetProcessor s)) = log_ s ++ evs /\
    held_after false evs = false.
Proof.
  rewrite GetProcessor_eq. cbv zeta.
  destruct (pick _ _ _ _) as [p|]; [|destruct (max_size <? _)];
    cbn [state_of log_]; eexists; (split; [reflexivity|]);
    cbn [app held_after]; by rewrite held_after_app, held_after_scan_log.
Qed.

Lemma write_flag_log b p s :
  log_ (state_of (write_flag b p s)) =
    log_ s ++ [if b then EvUsed p else EvUnused p].
Proof.
  destruct (processors_ s !! p) as [c|] eqn:Hc.
  - by rewrite (write_flag_eq _ _ _ _ Hc).
  - by rewrite (write_flag_bad _ _ _ Hc).
Qed.

Section TheMutex.

Variable clock : nat -> MonoTime.
Variable ProcessCall : handle -> Slice -> option CQLResponse.

Lemma Handle_frees_the_mutex c s :
  exists evs,
    log_ (state_of (Handle clock ProcessCall (Some c) s)) = log_ s ++ evs /\
    held_after false evs = false.
Proof.
  destruct (GetProcessor_frees_the_mutex (started clock s)) as (g & Hlog & Hg).
  rewrite Handle_eq. cbv zeta.
  destruct (GetProcessor _) as [p s1|f s1]; cbn [state_of] in *.
  - destruct (ProcessCall _ _) as [r|]; cbn [state_of log_];
      rewrite Hlog; cbn [log_ started]; rewrite <- !app_assoc;
      eexists; (split; [reflexivity|]);
      cbn [app held_after]; by rewrite held_after_app, Hg.
  - rewrite Hlog. cbn [log_ started]. rewrite <- !app_assoc.
    eexists. split; [reflexivity|]. by cbn.
Qed.

(** X7: after any sequence of [GetProcessor], [Handle] and [unused()],
    however it ends, [process_mutex_] is free: each [GetProcessor] gives
    it back, also when [reserve] throws. *)
Theorem mutex_is_always_given_back ops : forall s,
  exists evs,
    log_ (state_of (run clock ProcessCall ops s)) = log_ s ++ evs /\
    held_after false evs = false.
Proof.
  induction ops as [|o ops IH]; intros s.
  - exists []. cbn. by rewrite app_nil_r.
  - destruct o as [|p|c]; cbn [run]; unfold bind at 1.
    + destruct (GetProcessor_frees_the_mutex s) as (g & Hlog & Hg).
      destruct (GetProcessor s) as [p s1|f s1]; cbn [state_of] in *;
        [|by exists g].
      destruct (IH s1) as (evs & Hlog' & Hevs). unfold bind at 1.
      destruct (run clock ProcessCall ops s1) as [hs s2|f s2];
        cbn [state_of ret] in *; exists (g ++ evs);
        rewrite Hlog', Hlog, app_assoc, held_after_app, Hg; by split.
    + pose proof (write_flag_log false p s) as Hlog. unfold unused.
      destruct (write_flag false p s) as [[] s1|f s1]; cbn [state_of] in *;
        [|by eexists].
      destruct (IH s1) as (evs & Hlog' & Hevs).
      exists ([EvUnused p] ++ evs). rewrite Hlog', Hlog, app_assoc.
      split; [done|]. by cbn.
    + destruct (Handle_frees_the_mutex c s) as (g & Hlog & Hg).
      destruct (Handle clock ProcessCall (Some c) s) as [[] s1|f s1];
        cbn [state_of] in *; [|by exists g].
      destruct (IH s1) as (evs & Hlog' & Hevs).
      exists (g ++ evs). rewrite Hlog', Hlog, app_assoc, held_after_app, Hg.
      by split.
Qed.

(** X8: [Handle] does the work on the call with the mutex free: what is
    logged while the mutex is held is the scan and the growth of
    [GetProcessor] alone, never the clock, a metric, [ProcessCall], the
    serialization or the acknowledgment. *)
Theorem call_work_is_outside_the_mutex c s s' :
  Handle clock ProcessCall (Some c) s = Ok tt s' ->
  exists p evs,
    log_ s' = log_ s ++ evs /\
    In (EvProcessCall p (serialized_request c)) evs /\
    forallb (from_GetProcessor p) (locked_events false evs) = true /\
    List.filter is_call_work (locked_events false evs) = [] /\
    held_after false evs = false.
Proof.
  rewrite Handle_eq. cbv zeta.
  destruct (GetProcessor _) as [p s1|] eqn:Hget; [|done].
  destruct (ProcessCall _ _) as [r|]; [|done].
  intros [= <-]. cbn [log_].
  destruct (GetProcessor_log _ _ _ Hget) as (g & Hlog & Hg & _).
  destruct (GetProcessor_frees_the_mutex (started clock s)) as (g' & Hlog' & Hg').
  rewrite Hget in Hlog'. cbn [state_of] in Hlog'.
  assert (g' = g) as -> by (rewrite Hlog in Hlog'; by apply app_inv_head in Hlog').
  exists p.
  exists ([EvNow (clock (ticks_ s))] ++ g ++
          served_log (clock (ticks_ s)) (clock (1 + ticks_ s)%nat)
            (clock (2 + ticks_ s)%nat) (clock (3 + ticks_ s)%nat) p c r).
  rewrite Hlog. cbn [log_ started].
  split; [by rewrite <- !app_assoc|].
  split; [apply in_or_app; right; apply in_or_app; right; cbn; tauto|].
  assert (locked_events false
            ([EvNow (clock (ticks_ s))] ++ g ++
             served_log (clock (ticks_ s)) (clock (1 + ticks_ s)%nat)
               (clock (2 + ticks_ s)%nat) (clock (3 + ticks_ s)%nat) p c r)
          = locked_events false g) as Hlocked.
  { cbn [app locked_events]. rewrite locked_events_app, Hg'. cbn.
    by rewrite app_nil_r. }
  rewrite Hlocked.
  pose proof (forallb_locked_events _ false _ Hg) as Hin.
  split; [done|]. split.
  - apply (filter_none _ _ _ Hin). by intros [].
  - cbn [app held_after]. by rewrite held_after_app, Hg'.
Qed.

End TheMutex.

Lemma call_work_is_outside_the_mutex_witness :
  exists s' p,
    Handle example_clock example_ProcessCall (Some example_call)
      (pool_with [true]) = Ok tt s' /\
    forallb (from_GetProcessor p) (locked_events false (log_ s')) = true.
Proof.
  destruct (Handle example_clock example_ProcessCall (Some example_call)
              (pool_with [true])) as [[] s'|f s'] eqn:Hh;
    [|vm_compute in Hh; discriminate].
  destruct (call_work_is_outside_the_mutex example_clock example_ProcessCall
              example_call (pool_with [true]) s' Hh)
    as (p & evs & Hlog & _ & Hall & _).
  exists s', p. split; [reflexivity|]. rewrite Hlog. exact Hall.
Defined.

(** ** Acquisitions in a row *)

Lemma grown_capacity_exact n capacity :
  Z.of_nat n + 10 <= INT_MAX ->
  grown_capacity n capacity = Z.max capacity (growth_request n).
Proof.
  intros Hfit. pose proof (growth_request_fits n Hfit) as [Hlo _].
  unfold grown_capacity. cbv zeta.
  destruct (capacity <? growth_request n) eqn:Hcap.
  - apply Z.ltb_lt in Hcap.
    destruct (Z.of_nat n <? growth_request n) eqn:Hn; [lia|].
    apply Z.ltb_ge in Hn. lia.
  - apply Z.ltb_ge in Hcap.
    destruct (Z.of_nat n <? capacity) eqn:Hn; [lia|].
    apply Z.ltb_ge in Hn. lia.
Qed.

Lemma grown_none_idle s p s' :
  grown s p s' -> forall i, ~ idle s' i.
Proof.
  intros (Hall & _ & _ & ->) i. unfold idle, busy in *. cbn.
  destruct (decide (i < length (processors_ s))%nat) as [Hlt|Hge].
  - rewrite lookup_app_l by done. by rewrite Hall.
  - destruct (decide (i = length (processors_ s))) as [->|Hne].
    + by rewrite list_lookup_middle.
    + rewrite lookup_ge_None_2; [done|rewrite length_app; cbn; lia].
Qed.

(** X9: two growths in a row: each reserves max(2*size, size+10) for the
    size it finds, the second more than the first, so that the room one
    growth reserves does not serve the next; the storage is enlarged
    again whenever it was no larger than what the first asked for. *)
Theorem every_growth_asks_for_more s :
  (forall i, ~ idle s i) ->
  2 * Z.of_nat (S (pool_size s)) <= INT_MAX ->
  let n := Z.of_nat (pool_size s) in
  exists s1 s2,
    GetProcessor s = Ok (pool_size s) s1 /\
    GetProcessor s1 = Ok (S (pool_size s)) s2 /\
    In (EvReserve (Z.max (2 * n) (n + 10))) (log_ s1) /\
    In (EvReserve (Z.max (2 * n + 2) (n + 11))) (log_ s2) /\
    capacity_ s1 = Z.max (capacity_ s) (Z.max (2 * n) (n + 10)) /\
    capacity_ s2 = Z.max (capacity_ s) (Z.max (2 * n + 2) (n + 11)) /\
    (capacity_ s <= Z.max (2 * n) (n + 10) -> capacity_ s1 < capacity_ s2).
Proof.
  intros Hnone Hfit n.
  assert (Z.of_nat (pool_size s) + 10 <= INT_MAX) as Hfit1
    by (unfold INT_MAX in *; lia).
  destruct (GetProcessor_grows s Hnone Hfit1) as (s1 & Hget1 & Hgr1).
  pose proof (grown_none_idle _ _ _ Hgr1) as Hnone1.
  assert (pool_size s1 = S (pool_size s)) as Hsize1.
  { destruct Hgr1 as (_ & _ & _ & ->). unfold pool_size. cbn.
    rewrite length_app. cbn. lia. }
  assert (Z.of_nat (pool_size s1) + 10 <= INT_MAX) as Hfit2
    by (rewrite Hsize1; unfold INT_MAX in *; lia).
  destruct (GetProcessor_grows s1 Hnone1 Hfit2) as (s2 & Hget2 & Hgr2).
  rewrite Hsize1 in Hget2. exists s1, s2. split; [done|]. split; [done|].
  assert (growth_request (pool_size s) = Z.max (2 * n) (n + 10)) as Hr1
    by (apply growth_request_exact; unfold INT_MAX in *; lia).
  assert (growth_request (pool_size s1) = Z.max (2 * n + 2) (n + 11)) as Hr2.
  { rewrite growth_request_exact by (rewrite Hsize1; lia).
    rewrite Hsize1. subst n. f_equal; lia. }
  split.
  { destruct Hgr1 as (_ & _ & _ & ->). cbn [log_]. fold (pool_size s).
    rewrite Hr1. apply in_or_app. right. apply in_or_app. right.
    apply in_or_app. right. cbn. tauto. }
  split.
  { destruct Hgr2 as (_ & _ & _ & ->). cbn [log_]. fold (pool_size s1).
    rewrite Hr2. apply in_or_app. right. apply in_or_app. right.
    apply in_or_app. right. cbn. tauto. }
  assert (capacity_ s1 = Z.max (capacity_ s) (Z.max (2 * n) (n + 10))) as Hc1.
  { destruct Hgr1 as (_ & _ & _ & ->). cbn [capacity_].
    fold (pool_size s). rewrite grown_capacity_exact by done.
    rewrite growth_request_exact by (unfold INT_MAX in *; lia). done. }
  assert (capacity_ s2 = Z.max (capacity_ s1) (Z.max (2 * n + 2) (n + 11)))
    as Hc2.
  { destruct Hgr2 as (_ & _ & _ & ->). cbn [capacity_].
    fold (pool_size s1). rewrite grown_capacity_exact by done.
    rewrite growth_request_exact by (rewrite Hsize1; lia).
    rewrite Hsize1. subst n. f_equal. lia. }
  split; [done|]. rewrite Hc2, Hc1. split; lia.
Qed.

Lemma every_growth_asks_for_more_witness :
  exists s1 s2,
    GetProcessor (pool_with [true; true]) = Ok 2%nat s1 /\
    GetProcessor s1 = Ok 3%nat s2 /\
    capacity_ s1 = 12 /\ capacity_ s2 = 13.
Proof.
  destruct (every_growth_asks_for_more (pool_with [true; true]))
    as (s1 & s2 & H1 & H2 & _ & _ & Hc1 & Hc2 & _).
  { intros i Hi. unfold idle in Hi.
    destruct i as [|[|[|i]]]; discriminate Hi. }
  { vm_compute. discriminate. }
  exists s1, s2. split; [exact H1|]. split; [exact H2|].
  split; [exact Hc1 | exact Hc2].
Defined.

Section AcquisitionsInARow.

Variable clock : nat -> MonoTime.
Variable ProcessCall : handle -> Slice -> option CQLResponse.

(** X10: on a pool with no idle processor, [M] acquisitions with no release
    create [M] processors and return them in the order of their slots:
    size, size+1, ...; the pool ends with exactly [M] more, all busy. *)
Theorem acquisitions_on_a_busy_pool M : forall s,
  (forall i, ~ idle s i) ->
  Z.of_nat (pool_size s + M) + 10 <= INT_MAX ->
  exists s',
    run clock ProcessCall (repeat Acquire M) s = Ok (seq (pool_size s) M) s' /\
    processors_ s' = processors_ s ++ replicate M {| is_used_ := true |}.
Proof.
  induction M as [|M IH]; intros s Hnone Hfit.
  - exists s. split; [done|]. cbn. by rewrite app_nil_r.
  - destruct (GetProcessor_grows s Hnone) as (s1 & Hget & Hgr); [lia|].
    pose proof (grown_none_idle _ _ _ Hgr) as Hnone1.
    destruct Hgr as (_ & _ & _ & Hs1).
    assert (processors_ s1 = processors_ s ++ [{| is_used_ := true |}])
      as Hps1 by (by rewrite Hs1).
    assert (pool_size s1 = S (pool_size s)) as Hsize1.
    { unfold pool_size. rewrite Hps1, length_app. cbn. lia. }
    destruct (IH s1 Hnone1) as (s' & Hrun & Hps'); [lia|].
    exists s'. cbn [repeat run seq]. unfold bind at 1. rewrite Hget.
    unfold bind at 1. rewrite Hrun. rewrite Hsize1. split; [done|].
    rewrite Hps', Hps1, <- app_assoc. done.
Qed.

(** X11: on a pool whose first [k] processors are idle and whose others are
    busy, [k] acquisitions with no release return the idle processors
    from the last slot to the first, and create none. *)
Theorem idle_processors_go_last_first k : forall others s,
  processors_ s = replicate k {| is_used_ := false |} ++ others ->
  Forall (fun c => is_used_ c = true) others ->
  exists s',
    run clock ProcessCall (repeat Acquire k) s = Ok (rev (seq 0 k)) s' /\
    processors_ s' = replicate k {| is_used_ := true |} ++ others.
Proof.
  induction k as [|k IH]; intros others s Hps Hothers.
  - by exists s.
  - assert (idle s k) as Hk.
    { unfold idle. rewrite Hps, lookup_app_l
        by (rewrite length_replicate; lia).
      apply lookup_replicate_2. lia. }
    destruct (GetProcessor_reuses s k Hk) as (p & s1 & Hget & Hre & Hle).
    destruct Hre as (Hp & _ & Hs1).
    assert (p = k) as ->.
    { destruct (decide (p = k)) as [|Hne]; [done|exfalso].
      unfold idle in Hp. rewrite Hps in Hp.
      rewrite lookup_app_r in Hp by (rewrite length_replicate; lia).
      rewrite Forall_lookup in Hothers. by apply Hothers in Hp. }
    assert (processors_ s1 =
              replicate k {| is_used_ := false |}
                ++ ({| is_used_ := true |} :: others)) as Hps1.
    { rewrite Hs1. cbn [processors_]. rewrite Hps, replicate_S_end.
      rewrite <- app_assoc.
      rewrite insert_app_r_alt by (rewrite length_replicate; lia).
      by rewrite length_replicate, Nat.sub_diag. }
    destruct (IH _ s1 Hps1) as (s' & Hrun & Hps'); [by constructor|].
    exists s'. cbn [repeat run]. unfold bind at 1. rewrite Hget.
    unfold bind at 1. rewrite Hrun. split.
    + rewrite seq_S, rev_unit. done.
    + rewrite Hps', replicate_S_end, <- app_assoc. done.
Qed.

End AcquisitionsInARow.

Lemma acquisitions_on_a_busy_pool_witness :
  exists s',
    run example_clock example_ProcessCall (repeat Acquire 5) initial
      = Ok [0; 1; 2; 3; 4]%nat s' /\
    pool_size s' = 5%nat.
Proof.
  destruct (acquisitions_on_a_busy_pool example_clock example_ProcessCall
              5 initial) as (s' & Hrun & Hps).
  { intros i Hi. unfold idle in Hi. cbn in Hi. by rewrite lookup_nil in Hi. }
  { vm_compute. discriminate. }
  exists s'. split; [exact Hrun|]. unfold pool_size. by rewrite Hps.
Defined.

Lemma idle_processors_go_last_first_witness :
  exists s',
    run example_clock example_ProcessCall (repeat Acquire 3)
      (pool_with [false; false; false; true]) = Ok [2; 1; 0]%nat s' /\
    processors_ s' = map mkCQLProcessor [true; true; true; true].
Proof.
  destruct (idle_processors_go_last_first example_clock example_ProcessCall
              3 [{| is_used_ := true |}]
              (pool_with [false; false; false; true]))
    as (s' & Hrun & Hps).
  { reflexivity. }
  { repeat constructor. }
  exists s'. split; [exact Hrun | exact Hps].
Defined.

(** ** How [Handle] can stop, and how far the pool can grow *)

Section Limits.

Variable clock : nat -> MonoTime.
Variable ProcessCall : handle -> Slice -> option CQLResponse.

(** X12: a [CHECK] of [Handle] on a call fails only when the processor
    has left no response: [GetProcessor] had returned a processor, which
    is still marked used, the request was given to it, and nothing has
    been serialized or acknowledged. *)
Theorem Handle_fails_a_check_only_without_response c s s' :
  Handle clock ProcessCall (Some c) s = Stop CheckFailed s' ->
  exists p s1 evs,
    GetProcessor (started clock s) = Ok p s1 /\
    ProcessCall p (serialized_request c) = None /\
    busy s' p /\ ~ busy s p /\
    processors_ s' = processors_ s1 /\
    log_ s' = log_ s ++ evs /\
    In (EvProcessCall p (serialized_request c)) evs /\
    count is_transport evs = 0%nat /\
    count is_unused evs = 0%nat.
Proof.
  rewrite Handle_eq. cbv zeta.
  destruct (GetProcessor _) as [p s1|f1 s1] eqn:Hget.
  - destruct (ProcessCall _ _) as [r|] eqn:Hr; [done|].
    intros [= <-]. exists p, s1.
    destruct (GetProcessor_log _ _ _ Hget) as (g & Hlog & Hg & _).
    apply GetProcessor_Ok_facts in Hget as (Hbusy & Hnot & _).
    eexists. split; [done|]. split; [done|]. split; [done|].
    split; [done|]. split; [done|]. cbn [log_]. rewrite Hlog.
    cbn [log_ started]. split; [rewrite <- !app_assoc; reflexivity|].
    split; [apply in_or_app; right; apply in_or_app; right; cbn; tauto|].
    unfold count. rewrite !List.filter_app.
    rewrite !(filter_none _ _ g Hg) by (by intros []). by split.
  - intros [= -> <-].
    by apply GetProcessor_Stop_inv in Hget as (? & _).
Qed.

Lemma Handle_size_le c s :
  (pool_size (state_of (Handle clock ProcessCall (Some c) s))
   <= S (pool_size s))%nat.
Proof.
  rewrite Handle_eq. cbv zeta.
  pose proof (GetProcessor_size (started clock s)) as Hsize.
  destruct (GetProcessor _) as [p s1|f s1]; cbn in Hsize.
  - destruct (ProcessCall _ _); unfold pool_size in *; cbn in *;
      rewrite ?length_insert; lia.
  - unfold pool_size in *; cbn in *; lia.
Qed.

(** X13: a sequence of operations adds at most one processor for each call of
    [GetProcessor] in it, its calls of [Handle] counted, however the
    sequence ends. *)
Theorem pool_grows_by_one_per_acquisition ops : forall s,
  (pool_size (state_of (run clock ProcessCall ops s))
   <= pool_size s + acquisitions ops)%nat.
Proof.
  unfold acquisitions.
  induction ops as [|o ops IH]; intros s; [cbn; lia|].
  destruct o as [|p|c]; cbn [run List.filter length]; unfold bind at 1.
  - pose proof (GetProcessor_size s) as Hsize.
    destruct (GetProcessor s) as [p s1|f s1]; cbn in Hsize; [|cbn; lia].
    specialize (IH s1). unfold bind at 1.
    destruct (run clock ProcessCall ops s1); cbn in *; lia.
  - pose proof (write_flag_size false p s) as Hsize. unfold unused.
    destruct (write_flag false p s) as [[] s1|f s1]; cbn in Hsize; [|cbn; lia].
    specialize (IH s1). lia.
  - pose proof (Handle_size_le c s) as Hsize.
    destruct (Handle clock ProcessCall (Some c) s) as [[] s1|f s1];
      cbn in Hsize; [|cbn; lia].
    specialize (IH s1). lia.
Qed.

End Limits.

Lemma Handle_fails_a_check_only_without_response_witness :
  exists s',
    Handle example_clock (fun _ _ => None) (Some example_call) initial
      = Stop CheckFailed s' /\
    busy s' 0.
Proof.
  destruct (Handle example_clock (fun _ _ => None) (Some example_call)
              initial) as [[] s'|[] s'] eqn:Hh;
    try (vm_compute in Hh; discriminate).
  destruct (Handle_fails_a_check_only_without_response example_clock
              (fun _ _ => None) example_call initial s' Hh)
    as (p & s1 & evs & Hget & _ & Hbusy & _).
  exists s'. split; [reflexivity|].
  vm_compute in Hget. injection Hget as <- _. exact Hbusy.
Defined.
